(** * IDSnap icon generator: a shallow embedding of [create-icon.py]

    The script draws one launcher icon per Android density bucket with
    Pillow and writes it twice (standard and round variant).  The model
    below keeps Python's integers as [Z] (with [//] as floor division),
    Python's floats as IEEE-754 binary64 values ([spec_float] with
    precision 53), Pillow images as the tree of drawing calls that built
    them, and the file system and console as an explicit state threaded
    through [create_icon] and [main].  Exceptions are results: a raised
    exception leaves the state as it was when it was raised.

    The first half of the file holds the definitions: Python and Pillow as
    far as the script uses them, the script itself, and the closed forms
    the statements are written with.  The second half holds the lemmas on
    doubles, the lemmas on the script, the properties of the
    specification, numbered C1 to C10, and further properties of the two
    functions, numbered X1 to X16. *)

From Stdlib Require Import ZArith Lia Ascii String.
From Stdlib Require Import Floats.SpecFloat.
From stdpp Require Import base tactics option list list_numbers strings gmap pretty.

Local Open Scope string_scope.
Local Open Scope Z_scope.
Local Open Scope list_scope.

(** ** Exceptions and results *)

Inductive exn : Type :=
| ZeroDivisionError
| ValueError
| OverflowError
| OSError.

Inductive result (A : Type) : Type :=
| Ok (a : A)
| Raise (e : exn).
Arguments Ok {A} a.
Arguments Raise {A} e.

#[global] Instance result_ret : MRet result := fun A a => Ok a.
#[global] Instance result_bind : MBind result := fun A B f c =>
  match c with
  | Ok a => f a
  | Raise e => Raise e
  end.

(** [try: body except: handler] with a bare [except]: every exception of
    the body is swallowed and the handler runs instead. *)
Definition try_except {A} (body handler : result A) : result A :=
  match body with
  | Ok a => Ok a
  | Raise _ => handler
  end.

(** [for x in l: s = body x s], stopping at the first exception. *)
Fixpoint for_each {A S} (l : list A) (body : A -> S -> result S) (s : S) : result S :=
  match l with
  | [] => Ok s
  | x :: l' =>
      match body x s with
      | Ok s' => for_each l' body s'
      | Raise e => Raise e
      end
  end.

Definition is_ok {A} (r : result A) : bool :=
  match r with Ok _ => true | Raise _ => false end.

(** ** Python numbers *)

Module Py.

(** [range(n)]: empty when [n <= 0]. *)
Definition range (n : Z) : list Z := seqZ 0 n.

Definition float : Type := spec_float.

Definition prec : Z := 53.
Definition emax : Z := 1024.

(** [float(n)] for an integer [n] (round to nearest, ties to even). *)
Definition float_of_int (n : Z) : float := binary_normalize prec emax n 0 false.

(** [a / b] on integers: the double nearest to the exact quotient (ties to
    even), or [ZeroDivisionError].  The integers enter [SFdiv] as mantissas
    at exponent 0, of any length, so nothing is rounded before the division
    (lemma [SFdiv_normal] below). *)
Definition truediv (a b : Z) : result float :=
  match b with
  | Z0 => Raise ZeroDivisionError
  | Zpos mb =>
      match a with
      | Z0 => Ok (S754_zero false)
      | Zpos ma => Ok (SFdiv prec emax (S754_finite false ma 0) (S754_finite false mb 0))
      | Zneg ma => Ok (SFdiv prec emax (S754_finite true ma 0) (S754_finite false mb 0))
      end
  | Zneg mb =>
      match a with
      | Z0 => Ok (S754_zero true)
      | Zpos ma => Ok (SFdiv prec emax (S754_finite false ma 0) (S754_finite true mb 0))
      | Zneg ma => Ok (SFdiv prec emax (S754_finite true ma 0) (S754_finite true mb 0))
      end
  end.

(** [n * x] with [n] an integer and [x] a float: [n] is converted first. *)
Definition int_mul_float (n : Z) (x : float) : float :=
  SFmul prec emax (float_of_int n) x.

(** [int(x)]: truncation towards zero; infinities and NaN raise. *)
Definition int_of_float (x : float) : result Z :=
  match x with
  | S754_zero _ => Ok 0
  | S754_finite s m e =>
      let a := match e with
               | Zneg p => Z.shiftr (Zpos m) (Zpos p)
               | _ => Z.shiftl (Zpos m) e
               end in
      Ok (if s then - a else a)
  | S754_infinity _ => Raise OverflowError
  | S754_nan => Raise ValueError
  end.

End Py.

(** ** Pillow: fonts, shapes and images *)

Module PIL.

Definition box : Type := Z * Z * Z * Z.

Inductive color : Type :=
| RGB (r g b : Z)
| RGBA (r g b a : Z).

Inductive font : Type :=
| TrueType (path : string) (px : Z)
| DefaultFont.

Inductive shape : Type :=
| Ellipse (xy : box) (fill : color)
| Rectangle (xy : box) (fill : color)
| Text (xy : Z * Z) (text : string) (fill : color) (fnt : font).

(** An image is the record of how it was made: a fresh canvas, a shape
    drawn on an image, or one image composited over another. *)
Inductive image : Type :=
| Blank (mode : string) (size : Z * Z) (fill : color)
| Drawn (im : image) (s : shape)
| Composite (im1 im2 : image).

Fixpoint image_mode (im : image) : string :=
  match im with
  | Blank mode _ _ => mode
  | Drawn im' _ => image_mode im'
  | Composite im1 _ => image_mode im1
  end.

Fixpoint image_size (im : image) : Z * Z :=
  match im with
  | Blank _ size _ => size
  | Drawn im' _ => image_size im'
  | Composite im1 _ => image_size im1
  end.

(** The colour the canvas was filled with before anything was drawn. *)
Fixpoint image_ground (im : image) : color :=
  match im with
  | Blank _ _ fill => fill
  | Drawn im' _ => image_ground im'
  | Composite im1 _ => image_ground im1
  end.

(** The shapes drawn directly on an image, oldest first (the shapes of a
    composited overlay belong to the overlay). *)
Fixpoint image_shapes (im : image) : list shape :=
  match im with
  | Blank _ _ _ => []
  | Drawn im' s => image_shapes im' ++ [s]
  | Composite im1 _ => image_shapes im1
  end.

(** The overlays composited into an image, oldest first. *)
Fixpoint image_overlays (im : image) : list image :=
  match im with
  | Blank _ _ _ => []
  | Drawn im' _ => image_overlays im'
  | Composite im1 im2 => image_overlays im1 ++ [im2]
  end.

(** [Image.new(mode, size, color)].  Pillow takes the two sides as C
    integers and then allocates the canvas, so a side of [2 ^ 31] or more
    raises [OverflowError] and a canvas too large for the machine
    [MemoryError].  Memory is not modelled: the canvas of every
    non-negative size exists here, and what is proved for a size is proved
    for the runs in which [Image.new] returns. *)
Definition Image_new (mode : string) (size : Z * Z) (fill : color) : result image :=
  if (size.1 <? 0) || (size.2 <? 0) then Raise ValueError
  else Ok (Blank mode size fill).

(** Pillow refuses a box whose second corner lies before the first. *)
Definition box_ok (xy : box) : bool :=
  let '(x0, y0, x1, y1) := xy in (x0 <=? x1) && (y0 <=? y1).

(** [ImageDraw.Draw(im).ellipse(xy, fill=fill)]. *)
Definition ellipse (xy : box) (fill : color) (im : image) : result image :=
  if box_ok xy then Ok (Drawn im (Ellipse xy fill)) else Raise ValueError.

(** [ImageDraw.Draw(im).rectangle(xy, fill=fill)]. *)
Definition rectangle (xy : box) (fill : color) (im : image) : result image :=
  if box_ok xy then Ok (Drawn im (Rectangle xy fill)) else Raise ValueError.

(** [ImageDraw.Draw(im).text(xy, text, fill=fill, font=font)]. *)
Definition text (xy : Z * Z) (txt : string) (fill : color) (fnt : font)
    (im : image) : result image :=
  Ok (Drawn im (Text xy txt fill fnt)).

(** [Image.alpha_composite(im1, im2)]: both images RGBA, same size. *)
Definition alpha_composite (im1 im2 : image) : result image :=
  if bool_decide (image_mode im1 = "RGBA" ∧ image_mode im2 = "RGBA"
                  ∧ image_size im1 = image_size im2)
  then Ok (Composite im1 im2)
  else Raise ValueError.

(** [ImageFont.truetype(path, size)], on a machine whose readable font
    files are [fonts]. *)
Definition truetype (fonts : gset string) (path : string) (px : Z) : result font :=
  if px <=? 0 then Raise ValueError
  else if bool_decide (path ∈ fonts) then Ok (TrueType path px)
  else Raise OSError.

(** [ImageFont.load_default()]: the font built into the library. *)
Definition load_default : font := DefaultFont.

End PIL.

Import PIL.

(** ** The machine: directories, files, font files and the console

    A directory or a file is known by one path: the paths of the machine
    are normalised (no empty, ["."] or [".."] component) and there are no
    links. *)

Record file : Type := File { file_format : string; file_image : image }.

Record world : Type := World {
  dirs : gset string;          (* paths that are directories *)
  files : gmap string file;    (* regular files written so far *)
  fonts : gset string;         (* font files that can be opened *)
  stdout : list string         (* lines printed, oldest first *)
}.

(** A computation reads and changes the machine and returns or raises;
    the machine it leaves behind is kept in both cases. *)
Definition M (A : Type) : Type := world -> result A * world.

#[global] Instance M_ret : MRet M := fun A a w => (Ok a, w).
#[global] Instance M_bind : MBind M := fun A B f c w =>
  match c w with
  | (Ok a, w') => f a w'
  | (Raise e, w') => (Raise e, w')
  end.

(** A pure step that may raise. *)
Definition lift {A} (r : result A) : M A := fun w => (r, w).

(** [for x in l: body x], stopping at the first exception. *)
Fixpoint for_loop {A} (l : list A) (body : A -> M unit) : M unit :=
  match l with
  | [] => mret tt
  | x :: l' => body x ;; for_loop l' body
  end.

Definition emit (line : string) (w : world) : world :=
  World (dirs w) (files w) (fonts w) (stdout w ++ [line]).

Definition print (line : string) : M unit := fun w => (Ok tt, emit line w).

(** [s * n] on a string. *)
Fixpoint str_repeat (s : string) (n : nat) : string :=
  match n with
  | O => ""
  | S n' => s +:+ str_repeat s n'
  end.

Module os.

Definition sep : ascii := "/"%char.

Definition starts_with_sep (s : string) : bool :=
  match s with
  | String c _ => bool_decide (c = sep)
  | EmptyString => false
  end.

Fixpoint ends_with_sep (s : string) : bool :=
  match s with
  | EmptyString => false
  | String c EmptyString => bool_decide (c = sep)
  | String _ s' => ends_with_sep s'
  end.

(** [os.path.join(a, b)] (POSIX). *)
Definition path_join (a b : string) : string :=
  if starts_with_sep b then b
  else if bool_decide (a = "") || ends_with_sep a then a +:+ b
  else a +:+ "/" +:+ b.

(** The ancestors of a path, outermost first, ending with the path
    itself: ["a/b/c"] gives ["a"; "a/b"; "a/b/c"]. *)
Fixpoint chain_from (seen rest : string) : list string :=
  match rest with
  | EmptyString => if bool_decide (seen = "") then [] else [seen]
  | String c rest' =>
      if bool_decide (c = sep)
      then (if bool_decide (seen = "") || ends_with_sep seen then [] else [seen])
             ++ chain_from (seen +:+ "/") rest'
      else chain_from (seen +:+ String c "") rest'
  end.

Definition chain (p : string) : list string := chain_from "" p.

(** [os.path.dirname(p)] for a path without a trailing separator; the
    empty string stands for the working directory. *)
Definition dirname (p : string) : string :=
  match reverse (chain p) with
  | _ :: d :: _ => d
  | _ => ""
  end.

(** [os.path.basename(p)]: what follows the last separator. *)
Fixpoint basename_from (seen rest : string) : string :=
  match rest with
  | EmptyString => seen
  | String c rest' =>
      if bool_decide (c = sep) then basename_from "" rest'
      else basename_from (seen +:+ String c "") rest'
  end.

Definition basename (p : string) : string := basename_from "" p.




Definition isdir (w : world) (p : string) : bool :=
  bool_decide (p = "") || bool_decide (p ∈ dirs w).

Definition add_dir (p : string) (w : world) : world :=
  World ({[p]} ∪ dirs w) (files w) (fonts w) (stdout w).

(** [os.mkdir] along a chain of ancestors, skipping the directories that
    exist: a regular file in the way raises. *)
Fixpoint mkdir_chain (ps : list string) : M unit :=
  match ps with
  | [] => mret tt
  | p :: ps' => fun w =>
      if bool_decide (p ∈ dirs w) then mkdir_chain ps' w
      else if bool_decide (is_Some (files w !! p)) then (Raise OSError, w)
      else mkdir_chain ps' (add_dir p w)
  end.

(** [os.makedirs(name, exist_ok=True)]. *)
Definition makedirs (name : string) : M unit := mkdir_chain (chain name).

End os.

(** A path that can name a regular file: its last component is not empty
    (the path is not [""] and does not end with a separator) and is neither
    ["."] nor [".."]. *)
Definition names_file (fp : string) : bool :=
  negb (bool_decide (os.basename fp ∈ [""; "."; ".."])).

(** [img.save(fp, format)] opens [fp] for writing, which needs [fp] to name
    a file, not to be a directory, and its directory to exist; an existing
    file is overwritten.  The image saved is taken to be non-empty: what
    Pillow does with a canvas of size 0 is not modelled, and no statement
    below is about size 0. *)
Definition writable (w : world) (fp : string) : bool :=
  names_file fp && negb (bool_decide (fp ∈ dirs w)) && os.isdir w (os.dirname fp).

Definition write_file (fp : string) (f : file) (w : world) : world :=
  World (dirs w) (<[fp := f]> (files w)) (fonts w) (stdout w).

Definition save (im : image) (fp : string) (format : string) : M unit := fun w =>
  if writable w fp then (Ok tt, write_file fp (File format im) w)
  else (Raise OSError, w).

(** ** The script *)

Section Script.

(** [draw.textbbox(xy, text, font=font)]: what the font engine measures;
    the script only reads the result. *)
Variable textbbox : Z * Z -> string -> font -> box.

Definition dejavu_bold : string :=
  "/usr/share/fonts/truetype/dejavu/DejaVuSans-Bold.ttf".
Definition arial : string := "/System/Library/Fonts/Arial.ttf".

(** Lines 41-49: the nested [try]/[except] around the font loaders. *)
Definition pick_font (fonts : gset string) (font_size : Z) : result font :=
  try_except (truetype fonts dejavu_bold font_size)
    (try_except (truetype fonts arial font_size)
       (Ok load_default)).

(** Lines 31-33: the body of the gradient loop. *)
Definition gradient_band (size margin i : Z) (gradient_overlay : image) : result image :=
  q ← Py.truediv i (size / 2);
  alpha ← Py.int_of_float (Py.int_mul_float 30 q);
  ellipse (margin, margin + i, size - margin, size - margin)
          (RGBA 0 0 0 alpha) gradient_overlay.

(** Lines 13-82 of [create_icon]: everything up to the canvas that is
    saved.  These lines touch nothing on the machine but the font files. *)
Definition paint_icon (fonts : gset string) (size : Z) : result image :=
  img ← Image_new "RGBA" (size, size) (RGBA 0 0 0 0);
  let bg_color := RGB 33 150 243 in
  let text_color := RGB 255 255 255 in
  let accent_color := RGB 255 193 7 in
  let margin := size / 20 in
  img ← ellipse (margin, margin, size - margin, size - margin) bg_color img;
  gradient_overlay ← Image_new "RGBA" (size, size) (RGBA 0 0 0 0);
  gradient_overlay ← for_each (Py.range (size / 2)) (gradient_band size margin)
                              gradient_overlay;
  img ← alpha_composite img gradient_overlay;
  let font_size := Z.max (size / 8) 12 in
  font ← pick_font fonts font_size;
  let text := "ID" in
  let '(bbox0, bbox1, bbox2, bbox3) := textbbox (0, 0) text font in
  let text_width := bbox2 - bbox0 in
  let text_height := bbox3 - bbox1 in
  let text_x := (size - text_width) / 2 in
  let text_y := (size - text_height) / 2 - size / 12 in
  let shadow_offset := Z.max 1 (size / 100) in
  img ← PIL.text (text_x + shadow_offset, text_y + shadow_offset) text
                 (RGBA 0 0 0 100) font img;
  img ← PIL.text (text_x, text_y) text text_color font img;
  let cam_size := size / 6 in
  let cam_x := (size - cam_size) / 2 in
  let cam_y := text_y + text_height + size / 20 in
  img ← rectangle (cam_x, cam_y, cam_x + cam_size, cam_y + cam_size / 2)
                  accent_color img;
  let lens_size := cam_size / 3 in
  let lens_x := cam_x + (cam_size - lens_size) / 2 in
  let lens_y := cam_y + (cam_size / 2 - lens_size) / 2 in
  ellipse (lens_x, lens_y, lens_x + lens_size, lens_y + lens_size)
          (RGBA 0 0 0 150) img.

Definition create_icon (size : Z) (output_path : string) : M unit := fun w =>
  (img ← lift (paint_icon (fonts w) size);
   save img output_path "PNG";;
   print ("Created icon: " +:+ output_path +:+ " (" +:+ pretty size +:+ "x"
          +:+ pretty size +:+ ")")) w.

(** The [sizes] dictionary, in insertion order. *)
Definition sizes : list (string * Z) :=
  [ ("mipmap-mdpi", 48);
    ("mipmap-hdpi", 72);
    ("mipmap-xhdpi", 96);
    ("mipmap-xxhdpi", 144);
    ("mipmap-xxxhdpi", 192) ].

Definition base_path : string := "android/app/src/main/res".

(** Lines 106-115: one turn of the loop of [main]. *)
Definition icon_pair (entry : string * Z) : M unit :=
  let '(folder, size) := entry in
  let folder_path := os.path_join base_path folder in
  os.makedirs folder_path;;
  let icon_path := os.path_join folder_path "ic_launcher.png" in
  create_icon size icon_path;;
  let round_icon_path := os.path_join folder_path "ic_launcher_round.png" in
  create_icon size round_icon_path.

Definition newline : string := String "010"%char "".

Definition main : M unit :=
  print "Generating IDSnap app icons...";;
  print (str_repeat "=" 40);;
  for_loop sizes icon_pair;;
  print (str_repeat "=" 40);;
  print "✓ All icons generated successfully!";;
  print "✓ Icons are ready for APK build";;
  print (newline +:+ "To rebuild APK with new icons:");;
  print "1. cd android";;
  print "2. ./gradlew clean";;
  print "3. ./gradlew assembleRelease".

(** ** What the script draws, in closed form

    The definitions below say what [paint_icon], [create_icon] and [main]
    produce when nothing raises; the lemmas of the second half prove that
    they do. *)

(** The font [pick_font] settles on, for a positive pixel size. *)
Definition picked_font (fonts : gset string) (font_size : Z) : font :=
  if bool_decide (dejavu_bold ∈ fonts) then TrueType dejavu_bold font_size
  else if bool_decide (arial ∈ fonts) then TrueType arial font_size
  else load_default.

(** The alpha computed on line 31 for band [i] of [h] bands. *)
Definition band_alpha (h i : Z) : Z :=
  match (q ← Py.truediv i h; Py.int_of_float (Py.int_mul_float 30 q)) with
  | Ok alpha => alpha
  | Raise _ => 0
  end.

Definition band_shape (size i : Z) : shape :=
  Ellipse (size / 20, size / 20 + i, size - size / 20, size - size / 20)
          (RGBA 0 0 0 (band_alpha (size / 2) i)).

Definition gradient_bands (size : Z) : list shape :=
  band_shape size <$> Py.range (size / 2).

(** The bands the specification describes: alpha [floor (30 i / h)]. *)
Definition floor_band (size i : Z) : shape :=
  Ellipse (size / 20, size / 20 + i, size - size / 20, size - size / 20)
          (RGBA 0 0 0 (30 * i / (size / 2))).

Definition draw_all (im : image) (l : list shape) : image := foldl Drawn im l.

Definition badge_box (size : Z) : box :=
  (size / 20, size / 20, size - size / 20, size - size / 20).

Definition text_origin (size : Z) (bbox : box) : Z * Z :=
  let '(bbox0, bbox1, bbox2, bbox3) := bbox in
  ((size - (bbox2 - bbox0)) / 2, (size - (bbox3 - bbox1)) / 2 - size / 12).

Definition camera_origin (size : Z) (bbox : box) : Z * Z :=
  let '(bbox0, bbox1, bbox2, bbox3) := bbox in
  ((size - size / 6) / 2,
   (text_origin size bbox).2 + (bbox3 - bbox1) + size / 20).

Definition camera_box (size : Z) (bbox : box) : box :=
  let '(cam_x, cam_y) := camera_origin size bbox in
  (cam_x, cam_y, cam_x + size / 6, cam_y + size / 6 / 2).

Definition lens_box (size : Z) (bbox : box) : box :=
  let '(cam_x, cam_y) := camera_origin size bbox in
  let lens_x := cam_x + (size / 6 - size / 6 / 3) / 2 in
  let lens_y := cam_y + (size / 6 / 2 - size / 6 / 3) / 2 in
  (lens_x, lens_y, lens_x + size / 6 / 3, lens_y + size / 6 / 3).

(** The five shapes on the canvas, oldest first. *)
Definition icon_shapes (size : Z) (fnt : font) (bbox : box) : list shape :=
  let '(text_x, text_y) := text_origin size bbox in
  let shadow_offset := Z.max 1 (size / 100) in
  [ Ellipse (badge_box size) (RGB 33 150 243);
    Text (text_x + shadow_offset, text_y + shadow_offset) "ID" (RGBA 0 0 0 100) fnt;
    Text (text_x, text_y) "ID" (RGB 255 255 255) fnt;
    Rectangle (camera_box size bbox) (RGB 255 193 7);
    Ellipse (lens_box size bbox) (RGBA 0 0 0 150) ].

Definition blank_canvas (size : Z) : image := Blank "RGBA" (size, size) (RGBA 0 0 0 0).

Definition icon_layout (size : Z) (fnt : font) (bbox : box) : image :=
  match icon_shapes size fnt bbox with
  | badge :: on_top =>
      draw_all (Composite (Drawn (blank_canvas size) badge)
                          (draw_all (blank_canvas size) (gradient_bands size)))
               on_top
  | [] => blank_canvas size
  end.

Definition icon_image (fonts : gset string) (size : Z) : image :=
  let fnt := picked_font fonts (Z.max (size / 8) 12) in
  icon_layout size fnt (textbbox (0, 0) "ID" fnt).

(** The line [create_icon] prints once the file is written. *)
Definition created_line (output_path : string) (size : Z) : string :=
  "Created icon: " +:+ output_path +:+ " (" +:+ pretty size +:+ "x"
  +:+ pretty size +:+ ")".

(** The machine after [create_icon size output_path] has succeeded. *)
Definition with_icon (size : Z) (output_path : string) (w : world) : world :=
  emit (created_line output_path size)
       (write_file output_path (File "PNG" (icon_image (fonts w) size)) w).

(** The ten render jobs of the batch, in the order [main] runs them. *)
Definition pair_jobs (entry : string * Z) : list (string * Z) :=
  let '(folder, size) := entry in
  let folder_path := os.path_join base_path folder in
  [ (os.path_join folder_path "ic_launcher.png", size);
    (os.path_join folder_path "ic_launcher_round.png", size) ].

Definition jobs : list (string * Z) := flat_map pair_jobs sizes.

Definition folders : list string := (fun entry => os.path_join base_path entry.1) <$> sizes.

(** The files after the jobs [js] have been written over [fs]. *)
Definition written (fnts : gset string) (js : list (string * Z))
    (fs : gmap string file) : gmap string file :=
  foldl (fun m job => <[job.1 := File "PNG" (icon_image fnts job.2)]> m) fs js.

(** The machine after one turn of the loop of [main] has succeeded. *)
Definition after_pair (w : world) (entry : string * Z) : world :=
  let '(folder, size) := entry in
  let folder_path := os.path_join base_path folder in
  with_icon size (os.path_join folder_path "ic_launcher_round.png")
    (with_icon size (os.path_join folder_path "ic_launcher.png")
       (os.add_dir folder_path w)).

(** The machine after [main] has succeeded. *)
Definition after_main (w : world) : world :=
  let w := emit "Generating IDSnap app icons..." w in
  let w := emit (str_repeat "=" 40) w in
  let w := foldl after_pair w sizes in
  let w := emit (str_repeat "=" 40) w in
  let w := emit "✓ All icons generated successfully!" w in
  let w := emit "✓ Icons are ready for APK build" w in
  let w := emit (newline +:+ "To rebuild APK with new icons:") w in
  let w := emit "1. cd android" w in
  let w := emit "2. ./gradlew clean" w in
  emit "3. ./gradlew assembleRelease" w.

(** The three paths one turn of the loop creates: a folder and two files. *)
Definition pair_paths (entry : string * Z) : list string :=
  let folder_path := os.path_join base_path entry.1 in
  [ folder_path;
    os.path_join folder_path "ic_launcher.png";
    os.path_join folder_path "ic_launcher_round.png" ].

Definition batch_paths : list string := flat_map pair_paths sizes.

(** The output root exists and holds none of the icon folders and files
    yet (so in particular when it is an empty directory). *)
Definition fresh_root (w : world) : Prop :=
  Forall (fun d => d ∈ dirs w) (os.chain base_path)
  ∧ Forall (fun p => (p ∉ dirs w) ∧ (p ∉ dom (files w))) batch_paths.

#[global] Instance fresh_root_dec (w : world) : Decision (fresh_root w).
Proof. unfold fresh_root. apply _. Defined.

(** What the paths of a turn must look like for the turn to go through:
    the folder sits right under the output root and the two files, which
    are named as files, in it. *)
Definition well_placed (entry : string * Z) : Prop :=
  let folder_path := os.path_join base_path entry.1 in
  0 < entry.2
  ∧ os.chain folder_path = os.chain base_path ++ [folder_path]
  ∧ os.dirname (os.path_join folder_path "ic_launcher.png") = folder_path
  ∧ os.dirname (os.path_join folder_path "ic_launcher_round.png") = folder_path
  ∧ names_file (os.path_join folder_path "ic_launcher.png") = true
  ∧ names_file (os.path_join folder_path "ic_launcher_round.png") = true.

End Script.

(** The horizontal extent and the height of a box. *)
Definition x_extent (xy : box) : Z * Z :=
  let '(x0, _, x1, _) := xy in (x0, x1).

Definition box_width (xy : box) : Z :=
  let '(x0, _, x1, _) := xy in x1 - x0.

Definition box_height (xy : box) : Z :=
  let '(_, y0, _, y1) := xy in y1 - y0.

(** ** The batch and the file system it meets

    [main] asks two things of the machine: that no regular file sits where
    it needs a directory, and that no directory sits where it writes an
    icon.  The definitions below name the paths and the two conditions. *)

(** The directories [os.makedirs] walks through in one turn of the loop. *)
Definition folder_chain (entry : string * Z) : list string :=
  os.chain (os.path_join base_path entry.1).

(** The ten directories of the icon tree: the output root with its four
    ancestors, then the five folders. *)
Definition tree_dirs : list string := os.chain base_path ++ folders.

(** [d] is a directory already, or nothing is in the way of creating it. *)
Definition free_for_dir (w : world) (d : string) : Prop :=
  (d ∈ dirs w) ∨ (d ∉ dom (files w)).

#[global] Instance free_for_dir_dec w d : Decision (free_for_dir w d).
Proof. unfold free_for_dir. apply _. Defined.

(** One turn of the loop finds its directories free and no directory where
    its two files go. *)
Definition turn_ready (w : world) (entry : string * Z) : Prop :=
  Forall (free_for_dir w) (folder_chain entry)
  ∧ Forall (fun job : string * Z => job.1 ∉ dirs w) (pair_jobs entry).

(** The same for the whole batch. *)
Definition can_run (w : world) : Prop :=
  Forall (free_for_dir w) tree_dirs ∧ Forall (fun p => p ∉ dirs w) jobs.*1.

#[global] Instance can_run_dec (w : world) : Decision (can_run w).
Proof. unfold can_run. apply _. Defined.

(** No directory of the table is also one of its icon paths. *)
Definition tree_apart (tbl : list (string * Z)) : Prop :=
  Forall (fun d => d ∉ (flat_map pair_jobs tbl).*1) (flat_map folder_chain tbl).

(** The line a job prints once its file is written. *)
Definition job_line (job : string * Z) : string := created_line job.1 job.2.

(** Lines 102-103 and 117-123: what [main] prints around the loop. *)
Definition opening_lines : list string :=
  [ "Generating IDSnap app icons..."; str_repeat "=" 40 ].

Definition closing_lines : list string :=
  [ str_repeat "=" 40;
    "✓ All icons generated successfully!";
    "✓ Icons are ready for APK build";
    newline +:+ "To rebuild APK with new icons:";
    "1. cd android";
    "2. ./gradlew clean";
    "3. ./gradlew assembleRelease" ].

Definition success_banner : string := "✓ All icons generated successfully!".

Definition emit_all (lines : list string) (w : world) : world :=
  foldl (fun w line => emit line w) w lines.

(** ** Machines and a font engine to run the script on *)

(** A font engine: a scalable font measures "ID" in proportion to its
    pixel size, the built-in bitmap font always measures the same. *)
Definition sample_textbbox (xy : Z * Z) (text : string) (fnt : font) : box :=
  match fnt with
  | TrueType _ px => (xy.1, xy.2 + px / 4, xy.1 + px * 5 / 4, xy.2 + px)
  | DefaultFont => (xy.1, xy.2 + 3, xy.1 + 12, xy.2 + 11)
  end.

(** The output root exists and is empty; no font file is installed. *)
Definition res_machine : world :=
  World (list_to_set (os.chain base_path)) ∅ ∅ [].

(** The same machine with DejaVu Sans Bold installed. *)
Definition dejavu_machine : world :=
  World (list_to_set (os.chain base_path)) ∅ {[ dejavu_bold ]} [].

(** A machine on which a regular file sits where the third folder of the
    batch should go. *)
Definition blocked_machine : world :=
  World (list_to_set (os.chain base_path))
        {[ "android/app/src/main/res/mipmap-xhdpi"
           := File "PNG" (Blank "RGBA" (1, 1) (RGBA 0 0 0 0)) ]}
        ∅ [].

(** A number of bands beyond every canvas ([huge_size / 2] is
    [2 ^ 49 + 15], while the sides of a canvas are below [2 ^ 31]), and a
    band index, on which the double-precision product [30 * (i / h)]
    reaches the next integer. *)
Definition huge_size : Z := 1125899906842654.
Definition huge_band : Z := 431594964289684.

(** ** Rounding, spelled out

    [binary_round_aux] rounds a mantissa together with the position of the
    exact value between that mantissa and the next.  The definitions here
    name the pieces the lemmas on [Py.truediv] and [Py.int_mul_float] use. *)

(** The exact value [num / den] lies in [[m, m+1)], where [l] says. *)
Definition located (num den m : Z) (l : location) : Prop :=
  0 <= num - m * den < den
  /\ l = if num - m * den =? 0 then loc_Exact
         else loc_Inexact (2 * (num - m * den) ?= den).

(** [num / den] rounded to the nearest integer, ties to even. *)
Definition rne_quot (num den : Z) : Z :=
  match 2 * (num mod den) ?= den with
  | Lt => num / den
  | Eq => if Z.even (num / den) then num / den else num / den + 1
  | Gt => num / den + 1
  end.

(** How many low bits a mantissa [m] at exponent [e] loses. *)
Definition shift_of (m e : Z) : Z :=
  Z.max 0 (fexp Py.prec Py.emax (Zdigits2 m + e) - e).

(** What [binary_round_aux] computes, shift by shift. *)
Definition rounded (s : bool) (num den m e : Z) : spec_float :=
  let n1 := shift_of m e in
  let r := rne_quot num (den * 2 ^ n1) in
  let n2 := shift_of r (e + n1) in
  match r / 2 ^ n2 with
  | Z0 => S754_zero s
  | Zpos p => if (e + n1 + n2 <=? Py.emax - Py.prec) then S754_finite s p (e + n1 + n2)
              else S754_infinity s
  | Zneg _ => S754_nan
  end.

(** Values below [2 ^ B]: a zero, or a positive float whose digits end at
    or below bit [B]. *)
Definition below (B : Z) (y : Py.float) : Prop :=
  y = S754_zero false
  \/ exists m e, y = S754_finite false m e /\ Zdigits2 (Zpos m) + e <= B.

(** The float nearest to [a / b], written with the exponent [- N] at which
    the quotient has 53 bits. *)
Definition quotient_float (a b N : Z) : Py.float :=
  let r := rne_quot (a * 2 ^ N) b in
  if r <? 2 ^ 53 then S754_finite false (Z.to_pos r) (- N)
  else S754_finite false (Z.to_pos (2 ^ 52)) (1 - N).

(** [int(30 * (k / 30)) == k], checked on one [k]. *)
Definition thirtieths_ok (k : Z) : bool :=
  match Py.int_of_float (Py.int_mul_float 30
          (SFdiv Py.prec Py.emax (S754_finite false (Z.to_pos k) 0)
                                 (S754_finite false 30 0))) with
  | Ok n => n =? k
  | Raise _ => false
  end.

(** * Lemmas on doubles

    Everything here is about [SpecFloat]'s binary64 operations as the
    script uses them: the quotient of two integers, the product with 30
    and the truncation to an integer. *)

(** ** Binary digits *)

Section Digits.

Lemma digits2_pos_bounds (p : positive) :
  2 ^ (Zpos (digits2_pos p) - 1) <= Zpos p < 2 ^ Zpos (digits2_pos p).
Proof.
  induction p as [p IH|p IH|]; cbn [digits2_pos].
  - rewrite Pos2Z.inj_succ.
    replace (Z.succ (Zpos (digits2_pos p)) - 1) with (Z.succ (Zpos (digits2_pos p) - 1)) by lia.
    rewrite !Z.pow_succ_r by lia. lia.
  - rewrite Pos2Z.inj_succ.
    replace (Z.succ (Zpos (digits2_pos p)) - 1) with (Z.succ (Zpos (digits2_pos p) - 1)) by lia.
    rewrite !Z.pow_succ_r by lia. lia.
  - simpl. lia.
Qed.

Lemma Zdigits2_nonneg m : 0 <= Zdigits2 m.
Proof. destruct m; simpl; lia. Qed.

Lemma Zdigits2_bounds m : 0 < m -> 2 ^ (Zdigits2 m - 1) <= m < 2 ^ Zdigits2 m.
Proof. destruct m; try lia. intros _. apply digits2_pos_bounds. Qed.

Lemma Zdigits2_le_of_lt m d : 0 <= m -> 0 <= d -> m < 2 ^ d -> Zdigits2 m <= d.
Proof.
  intros Hm Hd Hlt. destruct (Z.eq_dec m 0) as [->|Hne]; [simpl; lia|].
  destruct (Zdigits2_bounds m ltac:(lia)) as [Hlo _].
  destruct (Z_le_gt_dec (Zdigits2 m) d) as [|Hgt]; [done|exfalso].
  assert (2 ^ d <= 2 ^ (Zdigits2 m - 1)) by (apply Z.pow_le_mono_r; lia).
  lia.
Qed.

Lemma Zdigits2_ge_of_le m d : 0 <= d -> 2 ^ d <= m -> d + 1 <= Zdigits2 m.
Proof.
  intros Hd Hle.
  assert (0 < 2 ^ d) by (apply Z.pow_pos_nonneg; lia).
  destruct (Zdigits2_bounds m ltac:(lia)) as [_ Hhi].
  destruct (Z_le_gt_dec (d + 1) (Zdigits2 m)) as [|Hgt]; [done|exfalso].
  assert (2 ^ Zdigits2 m <= 2 ^ d) by (apply Z.pow_le_mono_r; pose proof (Zdigits2_nonneg m); lia).
  lia.
Qed.
End Digits.

(** ** Shifting a mantissa to the right *)

Section Shift.

Lemma loc_of_shr_record_of_loc m l : loc_of_shr_record (shr_record_of_loc m l) = l.
Proof. by destruct l as [|[]]. Qed.

Lemma shr_m_shr_record_of_loc m l : shr_m (shr_record_of_loc m l) = m.
Proof. by destruct l as [|[]]. Qed.

Lemma shr_1_m mrs : 0 <= shr_m mrs -> shr_m (shr_1 mrs) = shr_m mrs / 2.
Proof.
  destruct mrs as [m r s]; cbn [shr_m]. intros Hm.
  destruct m as [|[p|p|]|]; cbn [shr_1 shr_m]; try lia.
  - done.
  - apply Z.div_unique with 1; lia.
  - apply Z.div_unique with 0; lia.
  - done.
Qed.

Lemma located_quot num den m l : 0 < den -> located num den m l -> m = num / den.
Proof. intros Hd [Hr _]. apply Z.div_unique with (num - m * den); lia. Qed.

Lemma located_rem num den m l : 0 < den -> located num den m l -> num mod den = num - m * den.
Proof. intros Hd [Hr _]. symmetry. apply Z.mod_unique with m; lia. Qed.

Lemma shr_1_located num den mrs :
  0 < den -> 0 <= shr_m mrs ->
  located num den (shr_m mrs) (loc_of_shr_record mrs) ->
  located num (2 * den) (shr_m (shr_1 mrs)) (loc_of_shr_record (shr_1 mrs)).
Proof.
  intros Hd Hm [Hr Hl]. destruct mrs as [m r s]; simpl in *.
  set (r0 := num - m * den) in *.
  assert (Hcases : (r = false /\ s = false /\ r0 = 0)
                   \/ (r = false /\ s = true /\ 0 < r0 /\ 2 * r0 < den)
                   \/ (r = true /\ s = false /\ 0 < r0 /\ 2 * r0 = den)
                   \/ (r = true /\ s = true /\ 0 < r0 /\ den < 2 * r0)).
  { destruct (Z.eqb_spec r0 0) as [E|E].
    - destruct r, s; try discriminate. lia.
    - destruct (Z.compare_spec (2 * r0) den); destruct r, s; try discriminate; lia. }
  clear Hl. unfold located.
  destruct m as [|[p|p|]|]; try lia; cbn [shr_1 shr_m loc_of_shr_record orb].
  - (* m = 0 *)
    replace (num - 0 * (2 * den)) with r0 by (unfold r0; lia).
    destruct Hcases as [(-> & -> & E)|[(-> & -> & E)|[(-> & -> & E)|(-> & -> & E)]]];
      cbn [orb]; split; try lia.
    + rewrite E. done.
    + destruct (Z.eqb_spec r0 0); [lia|]. f_equal. symmetry. apply Z.compare_lt_iff. lia.
    + destruct (Z.eqb_spec r0 0); [lia|]. f_equal. symmetry. apply Z.compare_lt_iff. lia.
    + destruct (Z.eqb_spec r0 0); [lia|]. f_equal. symmetry. apply Z.compare_lt_iff. lia.
  - (* m = 2p+1 *)
    replace (num - Z.pos p * (2 * den)) with (r0 + den) by (unfold r0; lia).
    destruct (Z.eqb_spec (r0 + den) 0); [lia|].
    destruct Hcases as [(-> & -> & E)|[(-> & -> & E)|[(-> & -> & E)|(-> & -> & E)]]];
      cbn [orb]; split; try lia; f_equal; symmetry.
    + apply Z.compare_eq_iff. lia.
    + apply Z.compare_gt_iff. lia.
    + apply Z.compare_gt_iff. lia.
    + apply Z.compare_gt_iff. lia.
  - (* m = 2p *)
    replace (num - Z.pos p * (2 * den)) with r0 by (unfold r0; lia).
    destruct Hcases as [(-> & -> & E)|[(-> & -> & E)|[(-> & -> & E)|(-> & -> & E)]]];
      cbn [orb]; split; try lia.
    + rewrite E. done.
    + destruct (Z.eqb_spec r0 0); [lia|]. f_equal. symmetry. apply Z.compare_lt_iff. lia.
    + destruct (Z.eqb_spec r0 0); [lia|]. f_equal. symmetry. apply Z.compare_lt_iff. lia.
    + destruct (Z.eqb_spec r0 0); [lia|]. f_equal. symmetry. apply Z.compare_lt_iff. lia.
  - (* m = 1 *)
    replace (num - 0 * (2 * den)) with (r0 + den) by (unfold r0; lia).
    destruct (Z.eqb_spec (r0 + den) 0); [lia|].
    destruct Hcases as [(-> & -> & E)|[(-> & -> & E)|[(-> & -> & E)|(-> & -> & E)]]];
      cbn [orb]; split; try lia; f_equal; symmetry.
    + apply Z.compare_eq_iff. lia.
    + apply Z.compare_gt_iff. lia.
    + apply Z.compare_gt_iff. lia.
    + apply Z.compare_gt_iff. lia.
Qed.

Lemma iter_pos_nat {A} (f : A -> A) p x : SpecFloat.iter_pos f p x = Nat.iter (Pos.to_nat p) f x.
Proof.
  revert x. induction p as [p IH|p IH|]; intros x; cbn [SpecFloat.iter_pos].
  - rewrite !IH, Pos2Nat.inj_xI.
    replace (S (2 * Pos.to_nat p))%nat with (Pos.to_nat p + S (Pos.to_nat p))%nat by lia.
    rewrite Nat.iter_add. by rewrite Nat.iter_succ_r.
  - rewrite !IH, Pos2Nat.inj_xO.
    replace (2 * Pos.to_nat p)%nat with (Pos.to_nat p + Pos.to_nat p)%nat by lia.
    by rewrite Nat.iter_add.
  - done.
Qed.

Lemma iter_shr_1 num den mrs (n : nat) :
  0 < den -> 0 <= shr_m mrs ->
  located num den (shr_m mrs) (loc_of_shr_record mrs) ->
  let mrs' := Nat.iter n shr_1 mrs in
  0 <= shr_m mrs'
  /\ shr_m mrs' = shr_m mrs / 2 ^ Z.of_nat n
  /\ located num (den * 2 ^ Z.of_nat n) (shr_m mrs') (loc_of_shr_record mrs').
Proof.
  intros Hd Hm Hloc. induction n as [|n IH]; cbn zeta.
  - simpl. rewrite Z.div_1_r, Z.mul_1_r. done.
  - cbn zeta in IH. destruct IH as (IH0 & IHm & IHl).
    rewrite Nat.iter_succ, Nat2Z.inj_succ, Z.pow_succ_r by lia.
    assert (0 < 2 ^ Z.of_nat n) by (apply Z.pow_pos_nonneg; lia).
    rewrite shr_1_m by done. split; [|split].
    + apply Z.div_pos; lia.
    + rewrite IHm, Z.div_div by lia. f_equal. lia.
    + replace (den * (2 * 2 ^ Z.of_nat n)) with (2 * (den * 2 ^ Z.of_nat n)) by lia.
      rewrite <- shr_1_m by done. apply shr_1_located; [lia|done|done].
Qed.

Lemma round_nearest_even_located num den m l :
  0 < den -> located num den m l -> round_nearest_even m l = rne_quot num den.
Proof.
  intros Hd Hloc. pose proof (located_quot _ _ _ _ Hd Hloc) as Hq.
  pose proof (located_rem _ _ _ _ Hd Hloc) as Hr.
  destruct Hloc as [Hb ->]. unfold rne_quot. rewrite Hr, <- Hq.
  destruct (Z.eqb_spec (num - m * den) 0) as [E|E].
  - rewrite E. change (2 * 0) with 0.
    assert ((0 ?= den) = Lt) as -> by (apply Z.compare_lt_iff; lia). done.
  - cbn [round_nearest_even]. by destruct (2 * (num - m * den) ?= den).
Qed.

End Shift.

(** ** Rounding, shift by shift *)

Section Rounding.
Import Py.

Lemma shr_fexp_spec num den m e l :
  0 < den -> 0 <= m -> located num den m l ->
  let n := shift_of m e in
  let mrs := (shr_fexp prec emax m e l).1 in
  (shr_fexp prec emax m e l).2 = e + n
  /\ 0 <= shr_m mrs
  /\ shr_m mrs = m / 2 ^ n
  /\ located num (den * 2 ^ n) (shr_m mrs) (loc_of_shr_record mrs).
Proof.
  intros Hd Hm Hloc. unfold shift_of, shr_fexp, shr. cbn zeta.
  destruct (fexp prec emax (Zdigits2 m + e) - e) as [|p|p] eqn:E.
  - cbn [fst snd]. rewrite shr_m_shr_record_of_loc, loc_of_shr_record_of_loc.
    change (Z.max 0 0) with 0. rewrite Z.pow_0_r, Z.div_1_r, Z.mul_1_r, Z.add_0_r. done.
  - cbn [fst snd]. rewrite iter_pos_nat.
    replace (Z.max 0 (Z.pos p)) with (Z.of_nat (Pos.to_nat p)) by lia.
    destruct (iter_shr_1 num den (shr_record_of_loc m l) (Pos.to_nat p)) as (H0 & H1 & H2).
    + done.
    + by rewrite shr_m_shr_record_of_loc.
    + by rewrite shr_m_shr_record_of_loc, loc_of_shr_record_of_loc.
    + rewrite shr_m_shr_record_of_loc in H1. split; [lia|done].
  - cbn [fst snd]. rewrite shr_m_shr_record_of_loc, loc_of_shr_record_of_loc.
    replace (Z.max 0 (Z.neg p)) with 0 by lia.
    rewrite Z.pow_0_r, Z.div_1_r, Z.mul_1_r, Z.add_0_r. done.
Qed.

Lemma binary_round_aux_rounded s num den m e l :
  0 < den -> 0 <= m -> located num den m l ->
  binary_round_aux prec emax s m e l = rounded s num den m e.
Proof.
  intros Hd Hm Hloc. unfold binary_round_aux, rounded. cbn zeta.
  destruct (shr_fexp_spec num den m e l Hd Hm Hloc) as (He & H0 & Hq & Hl).
  destruct (shr_fexp prec emax m e l) as [mrs' e'] eqn:E1. cbn [fst snd] in *.
  assert (0 < den * 2 ^ shift_of m e) as Hd'.
  { apply Z.mul_pos_pos; [done|]. apply Z.pow_pos_nonneg; unfold shift_of; lia. }
  rewrite (round_nearest_even_located _ _ _ _ Hd' Hl).
  set (r := rne_quot num (den * 2 ^ shift_of m e)).
  assert (0 <= r) as Hr.
  { unfold r. rewrite <- (round_nearest_even_located _ _ _ _ Hd' Hl).
    unfold round_nearest_even.
    destruct (loc_of_shr_record mrs') as [|[]]; try lia. destruct (Z.even _); lia. }
  assert (located r 1 r loc_Exact) as Hlr.
  { unfold located. replace (r - r * 1) with 0 by lia. done. }
  destruct (shr_fexp_spec r 1 r e' loc_Exact ltac:(lia) Hr Hlr) as (He2 & H02 & Hq2 & _).
  destruct (shr_fexp prec emax r e' loc_Exact) as [mrs'' e''] eqn:E2. cbn [fst snd] in *.
  subst e' e''. rewrite Hq2. done.
Qed.

End Rounding.

(** ** Rounding a bounded value never overflows *)

Section Finite.
Import Py.

Lemma rne_quot_bounds num den : num / den <= rne_quot num den <= num / den + 1.
Proof. unfold rne_quot. destruct (_ ?= _); [destruct (Z.even _)| |]; lia. Qed.

Lemma Zdigits2_div_pow2 m n :
  0 <= n -> 0 < m / 2 ^ n -> Zdigits2 (m / 2 ^ n) <= Zdigits2 m - n.
Proof.
  intros Hn Hpos.
  assert (0 < 2 ^ n) as Hp by (apply Z.pow_pos_nonneg; lia).
  assert (0 < m) as Hm.
  { destruct (Z_lt_le_dec 0 m); [done|]. exfalso.
    assert (m / 2 ^ n <= 0) by (apply Z.div_le_upper_bound; lia). lia. }
  destruct (Zdigits2_bounds m Hm) as [_ Hhi].
  assert (2 ^ n <= m) as Hge.
  { destruct (Z_lt_le_dec m (2 ^ n)); [|done].
    rewrite Z.div_small in Hpos by lia. lia. }
  assert (n + 1 <= Zdigits2 m) by (apply Zdigits2_ge_of_le; lia).
  apply Zdigits2_le_of_lt; [lia|lia|].
  apply Z.div_lt_upper_bound; [lia|].
  rewrite <- Z.pow_add_r by lia. replace (n + (Zdigits2 m - n)) with (Zdigits2 m) by lia. done.
Qed.

Lemma Zdigits2_succ_le m r : 0 <= m -> 0 <= r <= m + 1 -> Zdigits2 r <= Zdigits2 m + 1.
Proof.
  intros Hm Hr. pose proof (Zdigits2_nonneg m).
  apply Zdigits2_le_of_lt; [lia|lia|].
  rewrite Z.pow_add_r, Z.pow_1_r by lia.
  destruct (Z.eq_dec m 0) as [->|]; [simpl; lia|].
  destruct (Zdigits2_bounds m ltac:(lia)). lia.
Qed.

Lemma fexp_le x B : x <= B + prec -> 3 - emax - prec <= B -> fexp prec emax x <= B.
Proof. unfold fexp, SpecFloat.emin. lia. Qed.

Lemma shift_of_exponent m e B :
  0 <= m -> Zdigits2 m + e <= B + prec -> e <= B -> 3 - emax - prec <= B ->
  e + shift_of m e <= B.
Proof.
  intros Hm Hd He HB. unfold shift_of.
  pose proof (fexp_le (Zdigits2 m + e) B Hd HB). lia.
Qed.

Lemma shift_of_digits m e :
  0 <= m -> 0 < m / 2 ^ shift_of m e ->
  Zdigits2 (m / 2 ^ shift_of m e) + (e + shift_of m e) <= Zdigits2 m + e.
Proof.
  intros Hm Hpos.
  assert (0 <= shift_of m e) by (unfold shift_of; lia).
  pose proof (Zdigits2_div_pow2 m (shift_of m e) ltac:(lia) Hpos). lia.
Qed.

(** A value below [2 ^ B] with [B] in range never rounds to an infinity
    or a NaN, and what it rounds to stays at or below [2 ^ (B+1)]. *)
Lemma rounded_finite s num den m e B :
  0 < den -> 0 <= m -> m = num / den ->
  Zdigits2 m + e <= B -> 3 - emax - prec <= B -> B <= emax - prec - 1 ->
  rounded s num den m e = S754_zero s
  \/ exists p e', rounded s num den m e = S754_finite s p e'
                  /\ Zdigits2 (Zpos p) + e' <= B + 1.
Proof.
  intros Hd Hm Hq Hdg HB1 HB2. unfold rounded. cbn zeta.
  assert (emax = 1024) as Hemax by done. assert (prec = 53) as Hprec by done.
  pose proof (Zdigits2_nonneg m) as Hdm.
  set (n1 := shift_of m e).
  assert (0 <= n1) as Hn1 by (unfold n1, shift_of; lia).
  assert (0 < 2 ^ n1) as Hp1 by (apply Z.pow_pos_nonneg; lia).
  set (r := rne_quot num (den * 2 ^ n1)).
  assert (num / (den * 2 ^ n1) = m / 2 ^ n1) as Hm1.
  { rewrite <- Z.div_div by lia. by rewrite <- Hq. }
  pose proof (rne_quot_bounds num (den * 2 ^ n1)) as Hr. fold r in Hr. rewrite Hm1 in Hr.
  assert (0 <= m / 2 ^ n1) as Hm1pos by (apply Z.div_pos; lia).
  assert (e + n1 <= B) as He1.
  { apply shift_of_exponent; lia. }
  assert (Zdigits2 r + (e + n1) <= B + 1) as Hdr.
  { destruct (Z.eq_dec (m / 2 ^ n1) 0) as [E0|E0].
    - rewrite E0 in Hr. assert (Zdigits2 r <= 1); [|lia].
      apply Zdigits2_le_of_lt; lia.
    - assert (0 < m / 2 ^ n1) as Hpos by lia.
      pose proof (shift_of_digits m e Hm Hpos) as Hsd. fold n1 in Hsd.
      pose proof (Zdigits2_succ_le (m / 2 ^ n1) r Hm1pos ltac:(lia)). lia. }
  set (n2 := shift_of r (e + n1)).
  assert (0 <= n2) as Hn2 by (unfold n2, shift_of; lia).
  assert (e + n1 + n2 <= B) as He2.
  { apply shift_of_exponent; lia. }
  destruct (r / 2 ^ n2) as [|p|p] eqn:E2.
  - by left.
  - right. exists p, (e + n1 + n2). split.
    + destruct (Z.leb_spec (e + n1 + n2) (emax - prec)); [done|lia].
    + assert (0 <= r) as Hr0 by lia.
      assert (0 < r / 2 ^ n2) as Hpos by lia.
      pose proof (shift_of_digits r (e + n1) Hr0 Hpos) as Hsd. fold n2 in Hsd.
      rewrite E2 in Hsd. lia.
  - exfalso. assert (0 <= r / 2 ^ n2); [|lia].
    apply Z.div_pos; [lia|]. apply Z.pow_pos_nonneg; lia.
Qed.

End Finite.

(** ** The quotient and the product stay finite *)

Section DivMul.
Import Py.

Lemma new_location_spec b r :
  0 < b -> 0 <= r < b ->
  new_location b r = if r =? 0 then loc_Exact else loc_Inexact (2 * r ?= b).
Proof.
  intros Hb Hr. unfold new_location, new_location_even, new_location_odd.
  destruct (Z.even b) eqn:Ev; [done|].
  destruct (Z.eqb_spec r 0); [done|]. f_equal.
  assert (Z.odd b = true) as Hodd by (by rewrite <- Z.negb_even, Ev).
  apply Z.odd_spec in Hodd as [c Hc].
  destruct (Z.compare_spec (2 * r + 1) b), (Z.compare_spec (2 * r) b); try done; lia.
Qed.

(** The quotient of two positive integers [a < b], before rounding. *)
Lemma SFdiv_core_binary_spec a b :
  0 < a < b ->
  let e' := Z.min (fexp prec emax (Zdigits2 a - Zdigits2 b)) 0 in
  SFdiv_core_binary prec emax a 0 b 0
  = (a * 2 ^ (- e') / b, e',
     new_location b ((a * 2 ^ (- e')) mod b)).
Proof.
  intros Hab. cbn zeta. unfold SFdiv_core_binary.
  rewrite !Z.add_0_r. change (0 - 0) with 0.
  set (e' := Z.min (fexp prec emax (Zdigits2 a - Zdigits2 b)) 0).
  assert (e' <= 0) as He by (unfold e'; lia).
  replace (0 - e') with (- e') by lia.
  assert ((match - e' with
           | 0 => a
           | Z.pos _ => Z.shiftl a (- e')
           | Z.neg _ => 0
           end) = a * 2 ^ (- e')) as ->.
  { destruct (- e') as [|p|p] eqn:E; [|by rewrite Z.shiftl_mul_pow2|lia].
    rewrite Z.pow_0_r. lia. }
  unfold Z.div, Z.modulo. by destruct (Z.div_eucl _ _).
Qed.

Lemma SFdiv_rounded (ma mb : positive) :
  Zpos ma < Zpos mb ->
  let e' := Z.min (fexp prec emax (Zdigits2 (Zpos ma) - Zdigits2 (Zpos mb))) 0 in
  SFdiv prec emax (S754_finite false ma 0) (S754_finite false mb 0)
  = rounded false (Zpos ma * 2 ^ (- e')) (Zpos mb) (Zpos ma * 2 ^ (- e') / Zpos mb) e'.
Proof.
  intros Hab. cbn zeta. unfold SFdiv.
  rewrite SFdiv_core_binary_spec by lia. cbn [xorb].
  set (e' := Z.min (fexp prec emax (Zdigits2 (Zpos ma) - Zdigits2 (Zpos mb))) 0).
  assert (0 < 2 ^ (- e')) by (apply Z.pow_pos_nonneg; unfold e'; lia).
  apply binary_round_aux_rounded; [lia| apply Z.div_pos; lia |].
  unfold located.
  pose proof (Z.mod_pos_bound (Zpos ma * 2 ^ (- e')) (Zpos mb) ltac:(lia)) as Hmod.
  assert (Z.pos ma * 2 ^ (- e') - Z.pos ma * 2 ^ (- e') / Z.pos mb * Z.pos mb
          = (Z.pos ma * 2 ^ (- e')) mod Z.pos mb) as ->.
  { rewrite Z.mod_eq by lia. lia. }
  split; [done|]. apply new_location_spec; lia.
Qed.

Lemma truediv_below a b :
  0 <= a < b -> exists y, truediv a b = Ok y /\ below 1 y.
Proof.
  intros Hab. destruct b as [|mb|mb]; try lia. destruct a as [|ma|ma]; try lia.
  - eexists; split; [done|]. by left.
  - eexists; split; [done|]. rewrite SFdiv_rounded by lia.
    set (e' := Z.min (fexp prec emax (Zdigits2 (Zpos ma) - Zdigits2 (Zpos mb))) 0).
    assert (e' <= 0) as He by (unfold e'; lia).
    assert (0 < 2 ^ (- e')) as Hp by (apply Z.pow_pos_nonneg; lia).
    destruct (rounded_finite false (Zpos ma * 2 ^ (- e')) (Zpos mb)
                (Zpos ma * 2 ^ (- e') / Zpos mb) e' 0) as [Hz|(p & e2 & Hf & Hd)].
    + lia.
    + apply Z.div_pos; lia.
    + done.
    + assert (Zdigits2 (Z.pos ma * 2 ^ (- e') / Z.pos mb) <= - e'); [|lia].
      apply Zdigits2_le_of_lt; [apply Z.div_pos; lia|lia|].
      apply Z.div_lt_upper_bound; [lia|]. nia.
    + done.
    + done.
    + by left.
    + right. exists p, e2. split; [done|lia].
Qed.

Lemma float_of_int_30 : float_of_int 30 = S754_finite false 8444249301319680 (-48).
Proof. reflexivity. Qed.

Lemma int_mul_float_30_below y :
  below 1 y -> below 7 (int_mul_float 30 y).
Proof.
  intros [->|(m & e & -> & Hd)]; unfold int_mul_float; rewrite float_of_int_30.
  - by left.
  - cbn [SFmul xorb].
    set (P := Z.pos (8444249301319680 * m)).
    assert (located P 1 P loc_Exact) as Hloc.
    { unfold located. replace (P - P * 1) with 0 by lia. done. }
    rewrite (binary_round_aux_rounded false P 1 P (-48 + e) loc_Exact) by (done || lia).
    destruct (rounded_finite false P 1 P (-48 + e) 6) as [Hz|(p & e2 & Hf & Hd2)].
    + lia.
    + lia.
    + by rewrite Z.div_1_r.
    + assert (Zdigits2 P <= 53 + Zdigits2 (Zpos m)); [|lia].
      pose proof (Zdigits2_bounds (Zpos m) ltac:(lia)) as [_ Hm].
      pose proof (Zdigits2_nonneg (Zpos m)).
      apply Zdigits2_le_of_lt; [lia|lia|].
      rewrite Z.pow_add_r by lia. unfold P. rewrite Pos2Z.inj_mul.
      assert (8444249301319680 < 2 ^ 53) by done. nia.
    + done.
    + done.
    + by left.
    + right. exists p, e2. split; [done|lia].
Qed.

Lemma int_of_float_below B y : below B y -> exists n, int_of_float y = Ok n /\ 0 <= n.
Proof.
  intros [->|(m & e & -> & _)]; cbn [int_of_float].
  - exists 0. done.
  - eexists; split; [done|].
    destruct e; [rewrite Z.shiftl_0_r; lia|apply Z.shiftl_nonneg; lia|apply Z.shiftr_nonneg; lia].
Qed.

End DivMul.

(** ** Rounding in the normal range *)

Section Normal.
Import Py.

Lemma rne_quot_scale c x y : 0 < c -> 0 < y -> rne_quot (c * x) (c * y) = rne_quot x y.
Proof.
  intros Hc Hy. unfold rne_quot.
  rewrite Z.div_mul_cancel_l, Z.mul_mod_distr_l by lia.
  replace (2 * (c * (x mod y))) with (c * (2 * (x mod y))) by lia.
  by rewrite <- Zmult_compare_compat_l by lia.
Qed.

Lemma rne_quot_half x y : 0 < y -> - y <= 2 * (rne_quot x y * y - x) <= y.
Proof.
  intros Hy. unfold rne_quot.
  pose proof (Z.div_mod x y ltac:(lia)) as Hdm.
  pose proof (Z.mod_pos_bound x y Hy) as Hm.
  destruct (Z.compare_spec (2 * (x mod y)) y); [destruct (Z.even _)| |]; nia.
Qed.

Lemma Zdigits2_unique m d : 0 < d -> 2 ^ (d - 1) <= m < 2 ^ d -> Zdigits2 m = d.
Proof.
  intros Hd [Hlo Hhi].
  assert (0 < 2 ^ (d - 1)) by (apply Z.pow_pos_nonneg; lia).
  pose proof (Zdigits2_le_of_lt m d ltac:(lia) ltac:(lia) Hhi).
  pose proof (Zdigits2_ge_of_le m (d - 1) ltac:(lia) Hlo). lia.
Qed.

(** The normal case of rounding: a mantissa of [53 + n] bits loses its
    [n] low bits, and a carry out of the top bit moves the exponent. *)
Lemma rounded_normal s num den m e :
  0 < den -> 0 <= m -> m = num / den ->
  let n := Zdigits2 m - 53 in
  0 <= n -> 3 - emax - prec <= e + n -> e + n + 1 <= emax - prec ->
  let r := rne_quot num (den * 2 ^ n) in
  2 ^ 52 <= r <= 2 ^ 53
  /\ rounded s num den m e
     = if r <? 2 ^ 53 then S754_finite s (Z.to_pos r) (e + n)
       else S754_finite s (Z.to_pos (2 ^ 52)) (e + n + 1).
Proof.
  intros Hd Hm0 Hq n Hn Hlo Hhi r.
  assert (emax = 1024) as Hemax by done. assert (prec = 53) as Hprec by done.
  assert (0 < m) as Hm.
  { destruct m as [|p|p]; [| lia |]; unfold n in Hn; simpl in Hn; lia. }
  assert (shift_of m e = n) as Hs1.
  { unfold shift_of, fexp, SpecFloat.emin. unfold n in *. lia. }
  assert (0 < 2 ^ n) as Hp by (apply Z.pow_pos_nonneg; lia).
  destruct (Zdigits2_bounds m Hm) as [Hmlo Hmhi].
  replace (Zdigits2 m - 1) with (52 + n) in Hmlo by (unfold n; lia).
  replace (Zdigits2 m) with (53 + n) in Hmhi by (unfold n; lia).
  rewrite Z.pow_add_r in Hmlo, Hmhi by lia.
  assert (2 ^ 52 <= m / 2 ^ n < 2 ^ 53) as Hm1.
  { split; [apply Z.div_le_lower_bound; lia | apply Z.div_lt_upper_bound; lia]. }
  pose proof (rne_quot_bounds num (den * 2 ^ n)) as Hr. fold r in Hr.
  rewrite <- Z.div_div, <- Hq in Hr by lia.
  split; [lia|].
  unfold rounded. cbn zeta. rewrite Hs1. fold r.
  destruct (Z.ltb_spec r (2 ^ 53)) as [Hlt|Hge].
  - assert (Zdigits2 r = 53) as Hdr by (apply Zdigits2_unique; [lia|]; change (53 - 1) with 52; lia).
    assert (shift_of r (e + n) = 0) as ->.
    { unfold shift_of, fexp, SpecFloat.emin. rewrite Hdr. lia. }
    rewrite Z.pow_0_r, Z.div_1_r, Z.add_0_r.
    destruct r as [|p|p]; try lia.
    destruct (Z.leb_spec (e + n) (emax - prec)); [done|lia].
  - assert (r = 2 ^ 53) as -> by lia.
    assert (shift_of (2 ^ 53) (e + n) = 1) as ->.
    { unfold shift_of, fexp, SpecFloat.emin. change (Zdigits2 (2 ^ 53)) with 54. lia. }
    change (2 ^ 53 / 2 ^ 1) with (Z.pos (Z.to_pos (2 ^ 52))).
    cbv iota. destruct (Z.leb_spec (e + n + 1) (emax - prec)); [done|lia].
Qed.

End Normal.

(** ** The quotient depends on the fraction only *)

Section Quotient.
Import Py.

Lemma Zdigits2_mono a b : 0 < a <= b -> Zdigits2 a <= Zdigits2 b.
Proof.
  intros Hab. destruct (Zdigits2_bounds b ltac:(lia)) as [_ Hb].
  apply Zdigits2_le_of_lt; [lia|apply Zdigits2_nonneg|lia].
Qed.

Lemma SFdiv_normal (ma mb : positive) :
  Zpos ma < Zpos mb -> Zdigits2 (Zpos mb) - Zdigits2 (Zpos ma) <= 1021 ->
  exists N, 0 <= N
    /\ 2 ^ 52 * Zpos mb <= Zpos ma * 2 ^ N < 2 ^ 53 * Zpos mb
    /\ SFdiv prec emax (S754_finite false ma 0) (S754_finite false mb 0)
       = quotient_float (Zpos ma) (Zpos mb) N.
Proof.
  intros Hab Hnorm. rewrite SFdiv_rounded by done. cbn zeta.
  assert (emax = 1024) as Hemax by done. assert (prec = 53) as Hprec by done.
  set (a := Zpos ma) in *. set (b := Zpos mb) in *.
  pose proof (Zdigits2_mono a b ltac:(lia)) as Hd12.
  assert (Z.min (fexp prec emax (Zdigits2 a - Zdigits2 b)) 0
          = - (53 + Zdigits2 b - Zdigits2 a)) as ->.
  { unfold fexp, SpecFloat.emin. lia. }
  rewrite Z.opp_involutive.
  set (s := 53 + Zdigits2 b - Zdigits2 a).
  assert (1 <= Zdigits2 a) as Hda1 by (unfold a; simpl; lia).
  assert (1 <= Zdigits2 b) as Hdb1 by (unfold b; simpl; lia).
  destruct (Zdigits2_bounds a ltac:(lia)) as [Halo Hahi].
  destruct (Zdigits2_bounds b ltac:(lia)) as [Hblo Hbhi].
  assert (0 < 2 ^ s) as Hps by (apply Z.pow_pos_nonneg; lia).
  assert (2 ^ (52 + Zdigits2 b) <= a * 2 ^ s) as Hlo.
  { replace (52 + Zdigits2 b) with (Zdigits2 a - 1 + s) by lia.
    rewrite Z.pow_add_r by lia. nia. }
  assert (a * 2 ^ s < 2 ^ (54 + (Zdigits2 b - 1))) as Hhi.
  { replace (54 + (Zdigits2 b - 1)) with (Zdigits2 a + s) by lia.
    rewrite Z.pow_add_r by lia. nia. }
  rewrite Z.pow_add_r in Hlo, Hhi by lia.
  set (q := a * 2 ^ s / b).
  assert (2 ^ 52 <= q < 2 ^ 54) as Hq.
  { split; [apply Z.div_le_lower_bound; nia | apply Z.div_lt_upper_bound; nia]. }
  assert (53 <= Zdigits2 q <= 54) as Hdq.
  { split.
    - apply (Zdigits2_ge_of_le q 52); lia.
    - apply Zdigits2_le_of_lt; lia. }
  destruct (rounded_normal false (a * 2 ^ s) b q (- s)) as [Hr Heq];
    [lia | lia | done | lia | lia | lia |].
  cbn zeta in Hr, Heq. set (n := Zdigits2 q - 53) in *.
  assert (0 < 2 ^ n) as Hpn by (apply Z.pow_pos_nonneg; lia).
  exists (s - n).
  assert (a * 2 ^ s = 2 ^ n * (a * 2 ^ (s - n))) as Hsplit.
  { replace s with (n + (s - n)) at 1 by lia. rewrite Z.pow_add_r by lia. lia. }
  assert (q / 2 ^ n = a * 2 ^ (s - n) / b) as Hq1.
  { unfold q. rewrite Z.div_div by lia. rewrite Hsplit.
    replace (b * 2 ^ n) with (2 ^ n * b) by lia. by rewrite Z.div_mul_cancel_l by lia. }
  assert (2 ^ 52 <= q / 2 ^ n < 2 ^ 53) as Hq1b.
  { destruct (Zdigits2_bounds q ltac:(lia)) as [Hqlo Hqhi].
    replace (Zdigits2 q - 1) with (52 + n) in Hqlo by (unfold n; lia).
    replace (Zdigits2 q) with (53 + n) in Hqhi by (unfold n; lia).
    rewrite Z.pow_add_r in Hqlo, Hqhi by lia.
    split; [apply Z.div_le_lower_bound; lia | apply Z.div_lt_upper_bound; lia]. }
  rewrite Hq1 in Hq1b.
  split; [lia|]. split.
  - pose proof (Z.mul_div_le (a * 2 ^ (s - n)) b ltac:(lia)).
    pose proof (Z.mul_succ_div_gt (a * 2 ^ (s - n)) b ltac:(lia)). nia.
  - assert (rne_quot (a * 2 ^ s) (b * 2 ^ n) = rne_quot (a * 2 ^ (s - n)) b) as Hrq.
    { rewrite Hsplit. replace (b * 2 ^ n) with (2 ^ n * b) by lia.
      by rewrite rne_quot_scale by lia. }
    rewrite Heq, Hrq. unfold quotient_float. cbn zeta.
    replace (- s + n) with (- (s - n)) by lia.
    replace (- (s - n) + 1) with (1 - (s - n)) by lia. done.
Qed.

Lemma quotient_exponent_unique a b N M :
  0 < a -> 0 < b -> 0 <= N -> 0 <= M ->
  2 ^ 52 * b <= a * 2 ^ N < 2 ^ 53 * b ->
  2 ^ 52 * b <= a * 2 ^ M < 2 ^ 53 * b ->
  N = M.
Proof.
  intros Ha Hb HN HM HbN HbM.
  assert (forall x y, 0 <= x -> 0 <= y ->
            2 ^ 52 * b <= a * 2 ^ x < 2 ^ 53 * b ->
            2 ^ 52 * b <= a * 2 ^ y < 2 ^ 53 * b -> x < y -> False) as Hlt.
  { intros x y Hx Hy Hbx Hby Hxy.
    assert (2 ^ (x + 1) <= 2 ^ y) as Hpow by (apply Z.pow_le_mono_r; lia).
    rewrite Z.pow_add_r, Z.pow_1_r in Hpow by lia.
    assert (0 < 2 ^ x) by (apply Z.pow_pos_nonneg; lia). nia. }
  destruct (Z.lt_trichotomy N M) as [H|[H|H]]; [exfalso; eauto|done|exfalso; eauto].
Qed.

(** The quotient depends on the fraction only. *)
Lemma quotient_float_scale a b a' b' N :
  0 < b -> 0 < b' -> a * b' = a' * b ->
  quotient_float a b N = quotient_float a' b' N.
Proof.
  intros Hb Hb' Heq. unfold quotient_float. cbn zeta.
  assert (rne_quot (a * 2 ^ N) b = rne_quot (a' * 2 ^ N) b') as ->; [|done].
  rewrite <- (rne_quot_scale b' (a * 2 ^ N) b) by lia.
  rewrite <- (rne_quot_scale b (a' * 2 ^ N) b') by lia.
  replace (b' * (a * 2 ^ N)) with (a * b' * 2 ^ N) by lia.
  rewrite Heq. f_equal; lia.
Qed.

Lemma SFdiv_same_fraction (ma mb ma' mb' : positive) :
  Zpos ma < Zpos mb -> Zpos ma' < Zpos mb' ->
  Zdigits2 (Zpos mb) - Zdigits2 (Zpos ma) <= 1021 ->
  Zdigits2 (Zpos mb') - Zdigits2 (Zpos ma') <= 1021 ->
  Zpos ma * Zpos mb' = Zpos ma' * Zpos mb ->
  SFdiv prec emax (S754_finite false ma 0) (S754_finite false mb 0)
  = SFdiv prec emax (S754_finite false ma' 0) (S754_finite false mb' 0).
Proof.
  intros Hab Hab' Hn Hn' Heq.
  destruct (SFdiv_normal ma mb Hab Hn) as (N & HN & HbN & ->).
  destruct (SFdiv_normal ma' mb' Hab' Hn') as (M & HM & HbM & ->).
  assert (N = M) as <-.
  { apply (quotient_exponent_unique (Zpos ma * Zpos mb') (Zpos mb * Zpos mb')); try lia.
    - nia.
    - rewrite Heq. nia. }
  apply quotient_float_scale; lia.
Qed.

End Quotient.

(** ** Truncating the product *)

Section Truncation.
Import Py.

Lemma int_of_float_nonpos_exp (m : positive) (e : Z) :
  e <= 0 -> int_of_float (S754_finite false m e) = Ok (Zpos m / 2 ^ (- e)).
Proof.
  intros He. cbn [int_of_float]. f_equal. destruct e as [|p|p]; try lia.
  - by rewrite Z.shiftl_0_r, Z.div_1_r.
  - rewrite Z.shiftr_div_pow2 by lia. done.
Qed.

Lemma pow2_lt_exp x y : 0 <= x -> 0 <= y -> 2 ^ x < 2 ^ y -> x < y.
Proof.
  intros Hx Hy Hlt. destruct (Z_lt_le_dec x y); [done|exfalso].
  assert (2 ^ y <= 2 ^ x) by (apply Z.pow_le_mono_r; lia). lia.
Qed.

Lemma pow2_le_exp x y : 0 <= x -> 0 <= y -> 2 ^ x <= 2 ^ y -> x <= y.
Proof.
  intros Hx Hy Hle. destruct (Z_le_gt_dec x y); [done|exfalso].
  assert (2 ^ (y + 1) <= 2 ^ x) as H by (apply Z.pow_le_mono_r; lia).
  rewrite Z.pow_add_r, Z.pow_1_r in H by lia.
  assert (0 < 2 ^ y) by (apply Z.pow_pos_nonneg; lia). lia.
Qed.

(** The arithmetic core: [rz / G] is the integer part of [30 a / b]. *)
Lemma trunc_core a b k rho my rz A G :
  0 < a < b -> b <= 2 ^ 47 -> 30 * a = k * b + rho -> 0 < rho < b ->
  2 ^ 52 <= my ->
  - b <= 2 * (my * b - a * A) <= b ->
  - A <= 2 * rz * A - 60 * my * G <= A ->
  0 < A -> b <= G ->
  k * G <= rz < (k + 1) * G.
Proof.
  intros Hab Hb Hk Hrho Hmy Hy Hz HA HG.
  assert (32 * b <= A) as HA32.
  { assert (2 * a * A >= (2 ^ 53 - 1) * b) by nia.
    assert (a <= 2 ^ 47 - 1) by lia.
    assert (2 * a * A <= 2 * (2 ^ 47 - 1) * A) by nia.
    assert (2 ^ 47 = 140737488355328) as E47 by done.
    assert (2 ^ 53 = 9007199254740992) as E53 by done.
    rewrite ?E47, ?E53 in *. lia. }
  assert (- A * b <= 2 * rz * A * b - 60 * G * (my * b) <= A * b) as Hzb by nia.
  assert (2 * (a * A) - b <= 2 * (my * b) <= 2 * (a * A) + b) as Hyb by lia.
  assert (60 * G * (a * A) - 30 * G * b <= 60 * G * (my * b)
          <= 60 * G * (a * A) + 30 * G * b) as Hyg by nia.
  assert (60 * G * (a * A) = 2 * G * A * (k * b) + 2 * G * A * rho) as Hka by nia.
  assert (0 < G) by lia.
  split.
  - destruct (Z_le_gt_dec (k * G) rz) as [|Hgt]; [done|exfalso].
    assert (rz <= k * G - 1) as Hle by lia.
    assert (2 * rz * A * b <= 2 * (k * G - 1) * A * b) by nia.
    assert (2 * G * A * rho >= 2 * G * A) by nia.
    assert (30 * G * b <= G * A) by nia.
    nia.
  - destruct (Z_lt_le_dec rz ((k + 1) * G)) as [|Hge]; [done|exfalso].
    assert (2 * ((k + 1) * G) * A * b <= 2 * rz * A * b) by nia.
    assert (2 * G * A * rho <= 2 * G * A * (b - 1)) by nia.
    assert (32 * (30 * G * b) <= 30 * (G * A)) by nia.
    assert (A * b <= A * G) by nia.
    nia.
Qed.

End Truncation.

(** ** [int(30 * y)] for a quotient [y] *)

Section Band.
Import Py.

Lemma mul30_trunc (my : positive) (ey a b k rho : Z) :
  2 ^ 52 <= Zpos my < 2 ^ 53 -> ey <= 0 ->
  - b <= 2 * (Zpos my * b - a * 2 ^ (- ey)) <= b ->
  0 < a < b -> b <= 2 ^ 47 -> 30 * a = k * b + rho -> 0 < rho < b ->
  int_of_float (int_mul_float 30 (S754_finite false my ey)) = Ok k.
Proof.
  intros Hmy Hey Hy Hab Hb Hk Hrho.
  assert (emax = 1024) as Hemax by done. assert (prec = 53) as Hprec by done.
  assert (2 ^ 47 = 140737488355328) as E47 by done.
  assert (2 ^ 52 = 4503599627370496) as E52 by done.
  assert (2 ^ 53 = 9007199254740992) as E53 by done.
  set (A := 2 ^ (- ey)) in *.
  assert (0 < A) as HA by (apply Z.pow_pos_nonneg; lia).
  (* the exponent of the quotient is moderate *)
  assert (32 * b <= A) as HA32.
  { assert (2 * a * A >= (2 ^ 53 - 1) * b) by nia.
    assert (2 * a * A <= 2 * (2 ^ 47 - 1) * A) by nia.
    rewrite ?E47, ?E53 in *. lia. }
  assert (A < 2 ^ 101) as HAhi.
  { assert (a * A <= (2 ^ 53 + 1) * b) by nia.
    assert (A <= a * A) by nia.
    assert (2 ^ 101 = 2 ^ 54 * 2 ^ 47) as -> by done.
    assert (2 ^ 54 = 18014398509481984) as -> by done.
    rewrite ?E47, ?E53 in *. nia. }
  assert (2 ^ 52 <= A) as HA52.
  { assert (2 * a * A >= (2 ^ 53 - 1) * b) by nia.
    assert (2 * a * A <= 2 * (b - 1) * A) by nia.
    rewrite ?E52, ?E53 in *. nia. }
  assert (52 <= - ey < 101) as Hrange.
  { split.
    - apply (pow2_le_exp 52 (- ey)); [lia|lia|]. by fold A.
    - apply (pow2_lt_exp (- ey) 101); [lia|lia|]. by fold A. }
  (* the product before rounding *)
  unfold int_mul_float. rewrite float_of_int_30. cbn [SFmul xorb].
  set (P := Z.pos (8444249301319680 * my)).
  assert (P = 30 * 2 ^ 48 * Zpos my) as HP by (unfold P; rewrite Pos2Z.inj_mul; done).
  assert (2 ^ 48 = 281474976710656) as E48 by done.
  assert (2 ^ 104 <= P < 2 ^ 106) as HPb.
  { assert (2 ^ 104 = 16 * 2 ^ 48 * 2 ^ 52) as -> by done.
    assert (2 ^ 106 = 32 * 2 ^ 48 * 2 ^ 53) as -> by done.
    rewrite HP, E48, ?E52, ?E53 in *. lia. }
  assert (105 <= Zdigits2 P <= 106) as HdP.
  { split; [apply (Zdigits2_ge_of_le P 104); lia | apply Zdigits2_le_of_lt; lia]. }
  assert (located P 1 P loc_Exact) as Hloc.
  { unfold located. replace (P - P * 1) with 0 by lia. done. }
  rewrite (binary_round_aux_rounded false P 1 P (-48 + ey) loc_Exact) by (done || lia).
  destruct (rounded_normal false P 1 P (-48 + ey)) as [Hr Heq];
    [lia | lia | by rewrite Z.div_1_r | lia | lia | lia |].
  cbn zeta in Hr, Heq. rewrite Heq. clear Heq.
  set (n := Zdigits2 P - 53) in *.
  set (rz := rne_quot P (1 * 2 ^ n)) in *.
  set (B := 2 ^ n).
  assert (0 < B) as HB by (apply Z.pow_pos_nonneg; lia).
  pose proof (rne_quot_half P (1 * 2 ^ n) ltac:(fold B; lia)) as Hz.
  fold rz in Hz. rewrite Z.mul_1_l in Hz. fold B in Hz.
  set (T := 48 - ey - n).
  assert (1 <= T) as HT by (unfold T, n; lia).
  set (G := 2 ^ T).
  assert (0 < G) as HG by (apply Z.pow_pos_nonneg; lia).
  assert (2 ^ 48 * A = G * B) as HAGB.
  { unfold A, G, B. rewrite <- !Z.pow_add_r by lia. f_equal. unfold T. lia. }
  assert (2 ^ 47 <= G) as HG47.
  { unfold G. apply Z.pow_le_mono_r; [lia|]. unfold T, n. lia. }
  assert (- A <= 2 * rz * A - 60 * Zpos my * G <= A) as Hz'.
  { assert (- (G * B) <= 2 * rz * (G * B) - 2 * P * G <= G * B) as H1 by nia.
    rewrite <- HAGB, HP, E48 in H1. lia. }
  pose proof (trunc_core a b k rho (Zpos my) rz A G Hab Hb Hk Hrho
                ltac:(lia) Hy Hz' HA ltac:(lia)) as Hcore.
  assert (rz / G = k) as Hdiv.
  { symmetry. apply Z.div_unique with (rz - k * G); lia. }
  destruct (Z.ltb_spec rz (2 ^ 53)) as [Hlt|Hge].
  - rewrite int_of_float_nonpos_exp by (unfold T in HT; lia).
    rewrite Z2Pos.id by lia.
    replace (- (-48 + ey + n)) with T by (unfold T; lia). by rewrite <- Hdiv.
  - assert (rz = 2 ^ 53) as Hrz by lia.
    rewrite int_of_float_nonpos_exp by (unfold T in HT; lia).
    replace (- (-48 + ey + n + 1)) with (T - 1) by (unfold T; lia).
    f_equal. rewrite <- Hdiv, Hrz.
    change (Z.pos (Z.to_pos (2 ^ 52))) with (2 ^ 52).
    unfold G. replace T with (1 + (T - 1)) at 2 by lia.
    rewrite Z.pow_add_r by lia.
    change (2 ^ 53) with (2 ^ 1 * 2 ^ 52).
    rewrite Z.div_mul_cancel_l; [done| |done].
    apply Z.pow_nonzero; lia.
Qed.

End Band.

(** ** [int(30 * (i / h))] is the floor of [30 i / h] up to [h = 2 ^ 47] *)

Section Alpha.
Import Py.

Lemma thirtieths_table k :
  1 <= k <= 29 ->
  int_of_float (int_mul_float 30
    (SFdiv prec emax (S754_finite false (Z.to_pos k) 0) (S754_finite false 30 0))) = Ok k.
Proof.
  intros Hk.
  assert (forallb thirtieths_ok (seqZ 1 29) = true) as Hall by (vm_compute; reflexivity).
  rewrite forallb_forall in Hall.
  specialize (Hall k). unfold thirtieths_ok in Hall.
  destruct (int_of_float _) as [n|e].
  - f_equal. apply Z.eqb_eq, Hall, list_elem_of_In, elem_of_seqZ. lia.
  - discriminate Hall. apply list_elem_of_In, elem_of_seqZ. lia.
Qed.

Lemma band_computation_floor h i :
  0 <= i < h -> h <= 2 ^ 47 ->
  (q ← truediv i h; int_of_float (int_mul_float 30 q)) = Ok (30 * i / h).
Proof.
  intros Hi Hh.
  assert (2 ^ 47 = 140737488355328) as E47 by done.
  assert (2 ^ 52 = 4503599627370496) as E52 by done.
  assert (2 ^ 53 = 9007199254740992) as E53 by done.
  destruct h as [|mb|mb]; try lia. destruct i as [|ma|ma]; try lia.
  - cbn [truediv mbind result_bind]. rewrite Z.mul_0_r, Z.div_0_l by lia. reflexivity.
  - cbn [truediv mbind result_bind].
    set (a := Zpos ma) in *. set (b := Zpos mb) in *.
    pose proof (Z.div_mod (30 * a) b ltac:(lia)) as Hdm.
    pose proof (Z.mod_pos_bound (30 * a) b ltac:(lia)) as Hrho.
    set (k := 30 * a / b) in *. set (rho := (30 * a) mod b) in *.
    assert (0 <= k <= 29) as Hk.
    { split; [apply Z.div_pos; lia|]. apply Z.lt_succ_r, Z.div_lt_upper_bound; lia. }
    assert (Zdigits2 b - Zdigits2 a <= 1021) as Hnorm.
    { assert (Zdigits2 b <= 48) by (apply Zdigits2_le_of_lt; lia).
      assert (1 <= Zdigits2 a) by (unfold a; simpl; lia). lia. }
    destruct (Z.eq_dec rho 0) as [E0|Hne].
    + (* an exact thirtieth *)
      assert (1 <= k) by nia.
      rewrite (SFdiv_same_fraction ma mb (Z.to_pos k) 30).
      * apply thirtieths_table. lia.
      * lia.
      * rewrite Z2Pos.id by lia. lia.
      * done.
      * rewrite Z2Pos.id by lia.
        assert (1 <= Zdigits2 k) by (apply (Zdigits2_ge_of_le k 0); lia).
        change (Zdigits2 30) with 5. lia.
      * rewrite Z2Pos.id by lia. fold a b. lia.
    + destruct (SFdiv_normal ma mb ltac:(lia) Hnorm) as (N & HN & HbN & ->).
      fold a b in HbN. unfold quotient_float. cbn zeta. fold a b.
      assert (0 < 2 ^ N) as HpN by (apply Z.pow_pos_nonneg; lia).
      assert (52 < N) as HN52.
      { apply (pow2_lt_exp 52 N); [lia|lia|]. nia. }
      set (r := rne_quot (a * 2 ^ N) b).
      pose proof (rne_quot_half (a * 2 ^ N) b ltac:(lia)) as Hhalf. fold r in Hhalf.
      pose proof (rne_quot_bounds (a * 2 ^ N) b) as Hrb. fold r in Hrb.
      assert (2 ^ 52 <= a * 2 ^ N / b < 2 ^ 53) as Hfloor.
      { split; [apply Z.div_le_lower_bound; lia | apply Z.div_lt_upper_bound; lia]. }
      destruct (Z.ltb_spec r (2 ^ 53)) as [Hlt|Hge].
      * apply (mul30_trunc (Z.to_pos r) (- N) a b k rho).
        -- rewrite Z2Pos.id by lia. lia.
        -- lia.
        -- rewrite Z2Pos.id, Z.opp_involutive by lia. lia.
        -- lia.
        -- lia.
        -- lia.
        -- lia.
      * assert (r = 2 ^ 53) as Hr by lia.
        assert (2 ^ N = 2 * 2 ^ (N - 1)) as HN2.
        { replace N with (1 + (N - 1)) at 1 by lia. rewrite Z.pow_add_r by lia. done. }
        apply (mul30_trunc (Z.to_pos (2 ^ 52)) (1 - N) a b k rho).
        -- done.
        -- lia.
        -- replace (- (1 - N)) with (N - 1) by lia.
           change (Z.pos (Z.to_pos (2 ^ 52))) with (2 ^ 52).
           rewrite Hr, HN2, E53 in Hhalf. rewrite E52. lia.
        -- lia.
        -- lia.
        -- lia.
        -- lia.
Qed.

End Alpha.

(** * Lemmas on the script *)

(** ** The canvas *)

(** Linear arithmetic with the floor divisions of the layout. *)
Ltac div_lia := Z.div_mod_to_equations; lia.

Section Canvas.
Variable textbbox : Z * Z -> string -> font -> box.

Lemma band_computation_ok h i :
  0 <= i < h ->
  (q ← Py.truediv i h; Py.int_of_float (Py.int_mul_float 30 q)) = Ok (band_alpha h i).
Proof.
  intros Hi. unfold band_alpha.
  destruct (truediv_below i h Hi) as (y & -> & Hy). cbn [mbind result_bind].
  destruct (int_of_float_below 7 _ (int_mul_float_30_below y Hy)) as (n & -> & _).
  done.
Qed.

Lemma band_alpha_floor h i :
  0 <= i < h -> h <= 2 ^ 47 -> band_alpha h i = 30 * i / h.
Proof.
  intros Hi Hh. unfold band_alpha. by rewrite band_computation_floor.
Qed.

Lemma gradient_band_ok size i overlay :
  0 < size -> 0 <= i < size / 2 ->
  gradient_band size (size / 20) i overlay = Ok (Drawn overlay (band_shape size i)).
Proof.
  intros Hs Hi. unfold gradient_band.
  pose proof (band_computation_ok (size / 2) i Hi) as Hb.
  destruct (Py.truediv i (size / 2)) as [q|e]; [|discriminate Hb].
  cbn [mbind result_bind] in *.
  destruct (Py.int_of_float _) as [alpha|e]; [|discriminate Hb].
  injection Hb as ->. unfold ellipse, box_ok, band_shape.
  destruct (Z.leb_spec (size / 20) (size - size / 20)); [|div_lia].
  destruct (Z.leb_spec (size / 20 + i) (size - size / 20)); [|div_lia].
  done.
Qed.

Lemma gradient_loop_ok size overlay :
  0 < size ->
  for_each (Py.range (size / 2)) (gradient_band size (size / 20)) overlay
  = Ok (draw_all overlay (gradient_bands size)).
Proof.
  intros Hs. unfold gradient_bands, Py.range.
  assert (Forall (fun i => 0 <= i < size / 2) (seqZ 0 (size / 2))) as Hall.
  { apply Forall_seqZ. lia. }
  revert overlay. induction Hall as [|i l Hi _ IH]; intros overlay.
  - done.
  - cbn [for_each fmap list_fmap]. rewrite gradient_band_ok by done. apply IH.
Qed.

Lemma pick_font_ok fonts font_size :
  0 < font_size -> pick_font fonts font_size = Ok (picked_font fonts font_size).
Proof.
  intros Hf. unfold pick_font, picked_font, truetype, try_except.
  destruct (Z.leb_spec font_size 0); [lia|].
  by repeat case_bool_decide.
Qed.

Lemma image_shapes_draw_all im l : image_shapes (draw_all im l) = image_shapes im ++ l.
Proof.
  unfold draw_all. revert im. induction l as [|s l IH]; intros im.
  - by rewrite app_nil_r.
  - cbn [foldl]. rewrite IH. cbn [image_shapes]. by rewrite <- app_assoc.
Qed.

Lemma image_size_draw_all im l : image_size (draw_all im l) = image_size im.
Proof.
  unfold draw_all. revert im. induction l as [|s l IH]; intros im; [done|].
  cbn [foldl]. by rewrite IH.
Qed.

Lemma image_mode_draw_all im l : image_mode (draw_all im l) = image_mode im.
Proof.
  unfold draw_all. revert im. induction l as [|s l IH]; intros im; [done|].
  cbn [foldl]. by rewrite IH.
Qed.

Lemma image_ground_draw_all im l : image_ground (draw_all im l) = image_ground im.
Proof.
  unfold draw_all. revert im. induction l as [|s l IH]; intros im; [done|].
  cbn [foldl]. by rewrite IH.
Qed.

Lemma image_overlays_draw_all im l : image_overlays (draw_all im l) = image_overlays im.
Proof.
  unfold draw_all. revert im. induction l as [|s l IH]; intros im; [done|].
  cbn [foldl]. by rewrite IH.
Qed.

Lemma Image_new_ok mode size fill :
  0 <= size -> Image_new mode (size, size) fill = Ok (Blank mode (size, size) fill).
Proof. intros Hs. unfold Image_new. cbn [fst snd]. by destruct (Z.ltb_spec size 0); [lia|]. Qed.

Lemma ellipse_ok x0 y0 x1 y1 fill im :
  x0 <= x1 -> y0 <= y1 ->
  ellipse (x0, y0, x1, y1) fill im = Ok (Drawn im (Ellipse (x0, y0, x1, y1) fill)).
Proof.
  intros Hx Hy. unfold ellipse, box_ok.
  destruct (Z.leb_spec x0 x1); [|lia]. by destruct (Z.leb_spec y0 y1); [|lia].
Qed.

Lemma rectangle_ok x0 y0 x1 y1 fill im :
  x0 <= x1 -> y0 <= y1 ->
  rectangle (x0, y0, x1, y1) fill im = Ok (Drawn im (Rectangle (x0, y0, x1, y1) fill)).
Proof.
  intros Hx Hy. unfold rectangle, box_ok.
  destruct (Z.leb_spec x0 x1); [|lia]. by destruct (Z.leb_spec y0 y1); [|lia].
Qed.

Lemma alpha_composite_ok im1 im2 :
  image_mode im1 = "RGBA" -> image_mode im2 = "RGBA" -> image_size im1 = image_size im2 ->
  alpha_composite im1 im2 = Ok (Composite im1 im2).
Proof. intros H1 H2 H3. unfold alpha_composite. by rewrite bool_decide_eq_true_2. Qed.

(** Lines 13-82 never raise for a positive size, and draw [icon_image]. *)
Lemma paint_icon_ok fonts size :
  0 < size -> paint_icon textbbox fonts size = Ok (icon_image textbbox fonts size).
Proof.
  intros Hs. unfold paint_icon, icon_image, icon_layout, icon_shapes, blank_canvas.
  rewrite !Image_new_ok by lia. cbn [mbind result_bind].
  rewrite ellipse_ok by div_lia. cbn [mbind result_bind].
  rewrite gradient_loop_ok by done. cbn [mbind result_bind].
  rewrite alpha_composite_ok by (by rewrite ?image_mode_draw_all, ?image_size_draw_all).
  cbn [mbind result_bind].
  rewrite pick_font_ok by lia. cbn [mbind result_bind].
  set (fnt := picked_font fonts (Z.max (size / 8) 12)).
  unfold camera_box, lens_box, camera_origin, text_origin, badge_box.
  destruct (textbbox (0, 0) "ID" fnt) as [[[bbox0 bbox1] bbox2] bbox3].
  unfold PIL.text. cbn [mbind result_bind fst snd].
  rewrite rectangle_ok by div_lia. cbn [mbind result_bind].
  rewrite ellipse_ok by div_lia. done.
Qed.

End Canvas.

(** ** The machine *)

Section Machine.
Variable textbbox : Z * Z -> string -> font -> box.

(** [create_icon] either writes the icon and reports it, or fails in
    [save] and leaves the machine alone. *)
Lemma create_icon_run size output_path w :
  0 < size ->
  create_icon textbbox size output_path w
  = if writable w output_path then (Ok tt, with_icon textbbox size output_path w)
    else (Raise OSError, w).
Proof.
  intros Hs. unfold create_icon, lift, save, print, mbind, M_bind.
  rewrite paint_icon_ok by done.
  by destruct (writable w output_path).
Qed.

Lemma mkdir_chain_keeps ps w :
  files (os.mkdir_chain ps w).2 = files w
  /\ fonts (os.mkdir_chain ps w).2 = fonts w
  /\ stdout (os.mkdir_chain ps w).2 = stdout w.
Proof.
  revert w. induction ps as [|p ps IH]; intros w; [done|].
  cbn [os.mkdir_chain]. repeat case_bool_decide; try done.
  destruct (IH (os.add_dir p w)) as (H1 & H2 & H3). done.
Qed.

Lemma mkdir_chain_raises ps w e :
  (os.mkdir_chain ps w).1 = Raise e -> e = OSError.
Proof.
  revert w. induction ps as [|p ps IH]; intros w; [done|].
  cbn [os.mkdir_chain]. repeat case_bool_decide; eauto.
  cbn [fst]. by intros [= <-].
Qed.

(** [exist_ok=True]: directories that exist are left alone. *)
Lemma mkdir_chain_present ps w :
  Forall (fun d => d ∈ dirs w) ps -> os.mkdir_chain ps w = (Ok tt, w).
Proof.
  induction 1 as [|p ps Hp _ IH]; [done|].
  cbn [os.mkdir_chain]. by rewrite bool_decide_eq_true_2.
Qed.

Lemma mkdir_chain_last ps p w :
  Forall (fun d => d ∈ dirs w) ps -> p ∉ dirs w -> files w !! p = None ->
  os.mkdir_chain (ps ++ [p]) w = (Ok tt, os.add_dir p w).
Proof.
  intros Hps Hp Hf. induction Hps as [|d ps Hd _ IH].
  - cbn [app os.mkdir_chain]. rewrite bool_decide_eq_false_2 by done.
    rewrite bool_decide_eq_false_2; [done|]. rewrite Hf. by intros [? ?].
  - cbn [app os.mkdir_chain]. by rewrite bool_decide_eq_true_2.
Qed.

Lemma written_app fnts js1 js2 fs :
  written textbbox fnts (js1 ++ js2) fs = written textbbox fnts js2 (written textbbox fnts js1 fs).
Proof. unfold written. by rewrite foldl_app. Qed.

Lemma written_lookup_other fnts js fs p :
  p ∉ js.*1 -> written textbbox fnts js fs !! p = fs !! p.
Proof.
  revert fs. induction js as [|[q s] js IH]; intros fs Hp; [done|].
  cbn [fmap list_fmap fst] in Hp. apply not_elem_of_cons in Hp as [Hne Hp].
  change (written textbbox fnts ((q, s) :: js) fs)
    with (written textbbox fnts js (<[q := File "PNG" (icon_image textbbox fnts s)]> fs)).
  rewrite IH by done. by rewrite lookup_insert_ne.
Qed.

Lemma written_lookup fnts js fs p s :
  NoDup js.*1 -> (p, s) ∈ js ->
  written textbbox fnts js fs !! p = Some (File "PNG" (icon_image textbbox fnts s)).
Proof.
  revert fs. induction js as [|[q t] js IH]; intros fs Hnd Hin.
  - by apply elem_of_nil in Hin.
  - cbn [fmap list_fmap fst] in Hnd. apply NoDup_cons in Hnd as [Hq Hnd].
    change (written textbbox fnts ((q, t) :: js) fs)
      with (written textbbox fnts js (<[q := File "PNG" (icon_image textbbox fnts t)]> fs)).
    apply elem_of_cons in Hin as [[= -> ->]|Hin].
    + rewrite written_lookup_other by done. by rewrite lookup_insert_eq.
    + by apply IH.
Qed.

End Machine.

(** ** The batch, job by job *)

Section Batch.
Variable textbbox : Z * Z -> string -> font -> box.

(** One turn of the loop completes zero, one or two of its jobs, in order;
    it raises exactly when it completes fewer than two. *)
Lemma icon_pair_progress entry w :
  0 < entry.2 ->
  exists j : nat,
    (j <= 2)%nat
    /\ files (icon_pair textbbox entry w).2
       = written textbbox (fonts w) (take j (pair_jobs entry)) (files w)
    /\ fonts (icon_pair textbbox entry w).2 = fonts w
    /\ ((icon_pair textbbox entry w).1 = Ok tt -> j = 2%nat)
    /\ (forall e, (icon_pair textbbox entry w).1 = Raise e -> (j < 2)%nat /\ e = OSError).
Proof.
  destruct entry as [folder size]. cbn [snd]. intros Hs.
  unfold icon_pair, pair_jobs, mbind, M_bind.
  set (fp := os.path_join base_path folder).
  set (p1 := os.path_join fp "ic_launcher.png").
  set (p2 := os.path_join fp "ic_launcher_round.png").
  destruct (mkdir_chain_keeps (os.chain fp) w) as (Hf1 & Hn1 & _).
  pose proof (mkdir_chain_raises (os.chain fp) w) as Hr1.
  fold (os.makedirs fp) in Hf1, Hn1, Hr1.
  destruct (os.makedirs fp w) as [[[]|e1] w1]; cbn [fst snd] in *.
  - rewrite create_icon_run by done.
    destruct (writable w1 p1).
    + rewrite create_icon_run by done.
      destruct (writable (with_icon textbbox size p1 w1) p2);
        cbn [fst snd with_icon emit write_file files fonts take written foldl].
      * exists 2%nat. rewrite Hf1, Hn1. repeat split; intros; simplify_eq; done || lia.
      * exists 1%nat. rewrite Hf1, Hn1. repeat split; intros; simplify_eq; done || lia.
    + exists 0%nat. cbn [fst snd take written foldl]. rewrite Hf1, Hn1.
      repeat split; intros; simplify_eq; done || lia.
  - exists 0%nat. cbn [fst snd take written foldl]. rewrite Hf1, Hn1.
    repeat split; intros; simplify_eq; try (done || lia). by apply Hr1.
Qed.

Lemma pair_jobs_length entry : length (pair_jobs entry) = 2%nat.
Proof. by destruct entry. Qed.

(** The loop completes a prefix of its jobs; it raises exactly when the
    prefix is proper, and then with the error of the file system. *)
Lemma for_loop_progress tbl w :
  Forall (fun entry => 0 < entry.2) tbl ->
  let js := flat_map pair_jobs tbl in
  let r := for_loop tbl (icon_pair textbbox) w in
  exists k : nat,
    (k <= length js)%nat
    /\ files r.2 = written textbbox (fonts w) (take k js) (files w)
    /\ fonts r.2 = fonts w
    /\ (r.1 = Ok tt -> k = length js)
    /\ (forall e, r.1 = Raise e -> (k < length js)%nat /\ e = OSError).
Proof.
  intros Hpos. revert w. induction Hpos as [|entry tbl Hs _ IH]; intros w; cbn zeta.
  - exists 0%nat. repeat split; try done.
  - cbn [for_loop flat_map]. unfold mbind, M_bind.
    destruct (icon_pair_progress entry w Hs) as (j & Hj & Hfj & Hnj & Hok & Hraise).
    rewrite length_app, pair_jobs_length.
    destruct (icon_pair textbbox entry w) as [[[]|e1] w1]; cbn [fst snd] in *.
    + specialize (Hok eq_refl) as ->.
      destruct (IH w1) as (k & Hk & Hfk & Hnk & Hok' & Hraise'). cbn zeta in *.
      exists (2 + k)%nat. split; [lia|].
      rewrite take_app_ge by (rewrite pair_jobs_length; lia).
      rewrite pair_jobs_length, written_app.
      replace (2 + k - 2)%nat with k by lia.
      rewrite firstn_all2 in Hfj by (rewrite pair_jobs_length; lia).
      rewrite Hfk, Hnk, Hnj, Hfj. repeat split; try done.
      * intros H. by rewrite (Hok' H).
      * destruct (Hraise' e) as [? ?]; [done|lia].
      * by destruct (Hraise' e).
    + destruct (Hraise e1 eq_refl) as [Hj2 ->].
      exists j. split; [lia|].
      rewrite take_app_le by (rewrite pair_jobs_length; lia).
      repeat split; intros; simplify_eq; done || lia.
Qed.

Lemma sizes_positive : Forall (fun entry : string * Z => 0 < entry.2) sizes.
Proof. repeat constructor. Qed.

Lemma bind_run {A B} (c : M A) (k : A -> M B) w :
  (c ≫= k) w = match c w with
               | (Ok a, w') => k a w'
               | (Raise e, w') => (Raise e, w')
               end.
Proof. reflexivity. Qed.

Lemma print_then {B} line (k : M B) w : (print line ;; k) w = k (emit line w).
Proof. reflexivity. Qed.

(** [main] completes a prefix of the ten jobs. *)
Lemma main_progress w :
  exists k : nat,
    (k <= 10)%nat
    /\ files (main textbbox w).2 = written textbbox (fonts w) (take k jobs) (files w)
    /\ fonts (main textbbox w).2 = fonts w
    /\ ((main textbbox w).1 = Ok tt -> k = 10%nat)
    /\ (forall e, (main textbbox w).1 = Raise e -> (k < 10)%nat /\ e = OSError).
Proof.
  unfold main. rewrite !print_then.
  set (w0 := emit _ (emit _ w)).
  destruct (for_loop_progress sizes w0 sizes_positive) as (k & Hk & Hf & Hn & Hok & Hraise).
  cbn zeta in *. fold jobs in Hk, Hf, Hok, Hraise.
  assert (length jobs = 10%nat) as Hlen by reflexivity. rewrite Hlen in *.
  change (files w0) with (files w) in Hf. change (fonts w0) with (fonts w) in Hf, Hn.
  rewrite bind_run.
  destruct (for_loop sizes (icon_pair textbbox) w0) as [[[]|e1] w1]; cbn [fst snd] in *.
  - rewrite !print_then. unfold print. cbn [fst snd emit files fonts].
    exists k. repeat split; intros; simplify_eq; try done. by apply Hok.
  - destruct (Hraise e1 eq_refl) as [Hk10 ->].
    exists k. repeat split; intros; simplify_eq; done.
Qed.

Lemma jobs_NoDup : NoDup jobs.*1.
Proof. apply (bool_decide_unpack (NoDup jobs.*1)). vm_compute. exact I. Qed.

End Batch.

(** ** The drawing, read back *)

Section Drawing.
Variable textbbox : Z * Z -> string -> font -> box.

Lemma image_shapes_layout size fnt bbox :
  image_shapes (icon_layout size fnt bbox) = icon_shapes size fnt bbox.
Proof.
  unfold icon_layout, icon_shapes. destruct (text_origin size bbox) as [text_x text_y].
  by rewrite image_shapes_draw_all.
Qed.

Lemma image_overlays_layout size fnt bbox :
  image_overlays (icon_layout size fnt bbox)
  = [draw_all (blank_canvas size) (gradient_bands size)].
Proof.
  unfold icon_layout, icon_shapes. destruct (text_origin size bbox) as [text_x text_y].
  by rewrite image_overlays_draw_all.
Qed.

Lemma image_size_layout size fnt bbox : image_size (icon_layout size fnt bbox) = (size, size).
Proof.
  unfold icon_layout, icon_shapes. destruct (text_origin size bbox) as [text_x text_y].
  by rewrite image_size_draw_all.
Qed.

Lemma image_mode_layout size fnt bbox : image_mode (icon_layout size fnt bbox) = "RGBA".
Proof.
  unfold icon_layout, icon_shapes. destruct (text_origin size bbox) as [text_x text_y].
  by rewrite image_mode_draw_all.
Qed.

Lemma image_ground_layout size fnt bbox :
  image_ground (icon_layout size fnt bbox) = RGBA 0 0 0 0.
Proof.
  unfold icon_layout, icon_shapes. destruct (text_origin size bbox) as [text_x text_y].
  by rewrite image_ground_draw_all.
Qed.

Lemma icon_shapes_unfold size fnt bbox :
  icon_shapes size fnt bbox
  = [ Ellipse (badge_box size) (RGB 33 150 243);
      Text ((text_origin size bbox).1 + Z.max 1 (size / 100),
            (text_origin size bbox).2 + Z.max 1 (size / 100))
           "ID" (RGBA 0 0 0 100) fnt;
      Text (text_origin size bbox) "ID" (RGB 255 255 255) fnt;
      Rectangle (camera_box size bbox) (RGB 255 193 7);
      Ellipse (lens_box size bbox) (RGBA 0 0 0 150) ].
Proof. unfold icon_shapes. by destruct (text_origin size bbox). Qed.

Lemma camera_box_extent size bbox :
  x_extent (camera_box size bbox) = ((size - size / 6) / 2, (size - size / 6) / 2 + size / 6)
  /\ box_width (camera_box size bbox) = size / 6
  /\ box_height (camera_box size bbox) = size / 6 / 2.
Proof.
  unfold camera_box, camera_origin. destruct bbox as [[[bbox0 bbox1] bbox2] bbox3].
  cbn [x_extent box_width box_height]. repeat split; lia.
Qed.

Lemma lens_box_extent size bbox :
  x_extent (lens_box size bbox)
  = ((size - size / 6) / 2 + (size / 6 - size / 6 / 3) / 2,
     (size - size / 6) / 2 + (size / 6 - size / 6 / 3) / 2 + size / 6 / 3)
  /\ box_width (lens_box size bbox) = size / 6 / 3
  /\ box_height (lens_box size bbox) = size / 6 / 3.
Proof.
  unfold lens_box, camera_origin. destruct bbox as [[[bbox0 bbox1] bbox2] bbox3].
  cbn [x_extent box_width box_height]. repeat split; lia.
Qed.

Lemma image_shapes_overlay size :
  image_shapes (draw_all (blank_canvas size) (gradient_bands size)) = gradient_bands size.
Proof. by rewrite image_shapes_draw_all. Qed.

(** Where the specification's bands and the script's bands agree. *)
Lemma gradient_bands_floor size :
  size / 2 <= 2 ^ 47 -> gradient_bands size = floor_band size <$> Py.range (size / 2).
Proof.
  intros Hh. unfold gradient_bands. apply list_fmap_ext. intros k i Hi.
  apply lookup_seqZ in Hi as [-> Hk]. unfold band_shape, floor_band.
  rewrite band_alpha_floor by lia. done.
Qed.

End Drawing.

Lemma with_icon_lookup textbbox size output_path w :
  files (with_icon textbbox size output_path w) !! output_path
  = Some (File "PNG" (icon_image textbbox (fonts w) size)).
Proof. unfold with_icon, emit, write_file. cbn [files]. apply lookup_insert_eq. Qed.

Lemma image_size_icon textbbox fnts size : image_size (icon_image textbbox fnts size) = (size, size).
Proof. unfold icon_image. apply image_size_layout. Qed.

Lemma truediv_by_zero a : Py.truediv a 0 = Raise ZeroDivisionError.
Proof. reflexivity. Qed.

(** ** The batch on a fresh output root *)

Section Fresh.
Variable textbbox : Z * Z -> string -> font -> box.

Lemma writable_not_dir w path : writable w path = true -> path ∉ dirs w.
Proof.
  unfold writable. intros Hw Hin. rewrite (bool_decide_eq_true_2 _ Hin) in Hw.
  by destruct (names_file path).
Qed.

Lemma writable_in_new_folder w folder_path path :
  names_file path = true ->
  os.dirname path = folder_path -> folder_path ∈ dirs w -> path ∉ dirs w ->
  writable w path = true.
Proof.
  intros Hn Hd Hf Hp. unfold writable, os.isdir. rewrite Hn, Hd.
  rewrite (bool_decide_eq_false_2 (path ∈ dirs w)) by done.
  rewrite (bool_decide_eq_true_2 (folder_path ∈ dirs w)) by done.
  by rewrite orb_true_r.
Qed.

(** A turn of the loop on fresh, well-placed paths goes through. *)
Lemma icon_pair_fresh entry w :
  well_placed entry ->
  Forall (fun d => d ∈ dirs w) (os.chain base_path) ->
  NoDup (pair_paths entry) ->
  Forall (fun p => p ∉ dirs w) (pair_paths entry) ->
  files w !! os.path_join base_path entry.1 = None ->
  icon_pair textbbox entry w = (Ok tt, after_pair textbbox w entry).
Proof.
  destruct entry as [folder size]. unfold well_placed, pair_paths. cbn [fst snd].
  set (fp := os.path_join base_path folder).
  set (p1 := os.path_join fp "ic_launcher.png").
  set (p2 := os.path_join fp "ic_launcher_round.png").
  intros (Hs & Hchain & Hd1 & Hd2 & Hn1 & Hn2) Hbase Hnd Hfresh Hfile.
  apply NoDup_cons in Hnd as [Hfp Hnd]. apply NoDup_cons in Hnd as [Hp12 _].
  apply not_elem_of_cons in Hfp as [Hfp1 Hfp]. apply not_elem_of_cons in Hfp as [Hfp2 _].
  apply Forall_cons in Hfresh as [Hfpd Hfresh].
  apply Forall_cons in Hfresh as [Hp1d Hfresh].
  apply Forall_cons in Hfresh as [Hp2d _].
  unfold icon_pair, after_pair. fold fp p1 p2.
  rewrite bind_run. unfold os.makedirs. rewrite Hchain, mkdir_chain_last by done.
  rewrite bind_run, create_icon_run by done.
  rewrite (writable_in_new_folder _ fp p1); [| done | done | | ].
  - rewrite create_icon_run by done.
    rewrite (writable_in_new_folder _ fp p2); [done | done | done | | ].
    + cbn [with_icon emit write_file os.add_dir dirs].
      by apply elem_of_union_l, elem_of_singleton.
    + cbn [with_icon emit write_file os.add_dir dirs].
      apply not_elem_of_union. split; [by apply not_elem_of_singleton|done].
  - cbn [os.add_dir dirs]. by apply elem_of_union_l, elem_of_singleton.
  - cbn [os.add_dir dirs].
    apply not_elem_of_union. split; [by apply not_elem_of_singleton|done].
Qed.

Lemma after_pair_dirs w entry :
  dirs (after_pair textbbox w entry) = {[ os.path_join base_path entry.1 ]} ∪ dirs w.
Proof. by destruct entry. Qed.

Lemma after_pair_files_other w entry p :
  p ∉ pair_paths entry -> files (after_pair textbbox w entry) !! p = files w !! p.
Proof.
  destruct entry as [folder size]. unfold pair_paths. cbn [fst].
  intros Hp. apply not_elem_of_cons in Hp as [_ Hp].
  apply not_elem_of_cons in Hp as [Hp1 Hp]. apply not_elem_of_cons in Hp as [Hp2 _].
  cbn [after_pair with_icon emit write_file files].
  by rewrite !lookup_insert_ne.
Qed.

(** The loop on fresh, well-placed paths goes through. *)
Lemma for_loop_fresh tbl w :
  Forall well_placed tbl ->
  Forall (fun d => d ∈ dirs w) (os.chain base_path) ->
  NoDup (flat_map pair_paths tbl) ->
  Forall (fun p => (p ∉ dirs w) /\ files w !! p = None) (flat_map pair_paths tbl) ->
  for_loop tbl (icon_pair textbbox) w = (Ok tt, foldl (after_pair textbbox) w tbl).
Proof.
  intros Hwp. revert w. induction Hwp as [|entry tbl He _ IH]; intros w Hbase Hnd Hfresh.
  - done.
  - cbn [flat_map] in Hnd, Hfresh.
    apply NoDup_app in Hnd as (Hnd1 & Hdisj & Hnd2).
    apply Forall_app in Hfresh as [Hf1 Hf2].
    cbn [for_loop foldl]. rewrite bind_run.
    rewrite icon_pair_fresh; try done.
    + apply IH; [|done|].
      * rewrite after_pair_dirs. eapply Forall_impl; [exact Hbase|].
        intros d Hd. by apply elem_of_union_r.
      * rewrite Forall_forall in Hf2 |- *. intros p Hp.
        destruct (Hf2 p Hp) as [Hpd Hpf]. split.
        -- rewrite after_pair_dirs. intros [Heq%elem_of_singleton|?]%elem_of_union; [|done].
           apply (Hdisj p); [|done]. rewrite Heq. apply list_elem_of_here.
        -- rewrite after_pair_files_other; [done|]. intros Hin. by apply (Hdisj p).
    + eapply Forall_impl; [exact Hf1|]. by intros p [? ?].
    + apply Forall_cons in Hf1 as [[_ ?] _]. done.
Qed.

Lemma sizes_well_placed : Forall well_placed sizes.
Proof. repeat constructor; by vm_compute. Qed.

Lemma batch_paths_NoDup : NoDup batch_paths.
Proof. apply (bool_decide_unpack (NoDup batch_paths)). vm_compute. exact I. Qed.

(** On a fresh output root [main] returns normally. *)
Lemma main_fresh w :
  fresh_root w -> main textbbox w = (Ok tt, after_main textbbox w).
Proof.
  intros [Hbase Hfresh]. unfold main, after_main. rewrite !print_then, bind_run.
  rewrite for_loop_fresh; [| apply sizes_well_placed | done | apply batch_paths_NoDup | ].
  - rewrite !print_then. reflexivity.
  - eapply Forall_impl; [exact Hfresh|]. intros p [Hd Hf]. split; [done|].
    by apply not_elem_of_dom.
Qed.

Lemma foldl_after_pair_dirs tbl w :
  dirs (foldl (after_pair textbbox) w tbl)
  = list_to_set ((fun entry => os.path_join base_path entry.1) <$> tbl) ∪ dirs w.
Proof.
  revert w. induction tbl as [|entry tbl IH]; intros w.
  - cbn [foldl fmap list_fmap list_to_set]. by rewrite (left_id_L ∅ (∪)).
  - cbn [foldl fmap list_fmap list_to_set]. rewrite IH, after_pair_dirs.
    rewrite (comm_L (∪) {[_]} (list_to_set _)). by rewrite (assoc_L (∪)).
Qed.

Lemma emit_dirs line w : dirs (emit line w) = dirs w.
Proof. reflexivity. Qed.

Lemma after_main_dirs w : dirs (after_main textbbox w) = list_to_set folders ∪ dirs w.
Proof.
  unfold after_main, folders. cbv zeta.
  rewrite !emit_dirs, foldl_after_pair_dirs, !emit_dirs. reflexivity.
Qed.

End Fresh.

Lemma written_dom textbbox fnts js fs :
  dom (written textbbox fnts js fs) = list_to_set js.*1 ∪ dom fs.
Proof.
  revert fs. induction js as [|[q s] js IH]; intros fs.
  - cbn [written foldl fmap list_fmap list_to_set]. by rewrite (left_id_L ∅ (∪)).
  - change (written textbbox fnts ((q, s) :: js) fs)
      with (written textbbox fnts js (<[q := File "PNG" (icon_image textbbox fnts s)]> fs)).
    rewrite IH, dom_insert_L. cbn [fmap list_fmap list_to_set fst].
    rewrite (comm_L (∪) {[_]} (list_to_set _)). by rewrite (assoc_L (∪)).
Qed.

Lemma created_exactly (L : list string) (D : gset string) :
  Forall (fun p => p ∉ D) L -> (list_to_set L ∪ D) ∖ D = list_to_set L.
Proof.
  intros HL. rewrite Forall_forall in HL. apply set_eq. intros p.
  rewrite elem_of_difference, elem_of_union, !elem_of_list_to_set. split.
  - by intros [[?|?] ?].
  - intros Hp. split; [by left|by apply HL].
Qed.

Lemma folders_in_batch : Forall (fun p => p ∈ batch_paths) folders.
Proof. apply (bool_decide_unpack (Forall (fun p => p ∈ batch_paths) folders)). vm_compute. exact I. Qed.

Lemma job_paths_in_batch : Forall (fun p => p ∈ batch_paths) jobs.*1.
Proof. apply (bool_decide_unpack (Forall (fun p => p ∈ batch_paths) jobs.*1)). vm_compute. exact I. Qed.

Lemma pair_jobs_in_jobs entry job : entry ∈ sizes -> job ∈ pair_jobs entry -> job ∈ jobs.
Proof.
  intros He Hj. apply list_elem_of_In. unfold jobs. apply in_flat_map.
  exists entry. split; by apply list_elem_of_In.
Qed.

(** ** What the batch needs of the file system *)

Section Unblocked.
Variable textbbox : Z * Z -> string -> font -> box.

Lemma create_icon_keeps size output_path w :
  dirs (create_icon textbbox size output_path w).2 = dirs w
  /\ fonts (create_icon textbbox size output_path w).2 = fonts w.
Proof.
  unfold create_icon, lift, save, print, mbind, M_bind.
  destruct (paint_icon textbbox (fonts w) size) as [im|e]; [|done].
  by destruct (writable w output_path).
Qed.

Lemma mkdir_chain_runs ps w :
  Forall (free_for_dir w) ps ->
  (os.mkdir_chain ps w).1 = Ok tt
  /\ dirs (os.mkdir_chain ps w).2 = list_to_set ps ∪ dirs w.
Proof.
  revert w. induction ps as [|p ps IH]; intros w Hall.
  - cbn [os.mkdir_chain list_to_set]. split; [done|]. by rewrite (left_id_L ∅ (∪)).
  - apply Forall_cons in Hall as [Hp Hps]. cbn [os.mkdir_chain list_to_set].
    case_bool_decide as Hd.
    + destruct (IH w Hps) as [-> ->]. split; [done|].
      apply set_eq. intros x. rewrite !elem_of_union, elem_of_singleton.
      split; [intros [?|?]; auto|]. intros [[->|?]|?]; auto.
    + destruct Hp as [?|Hp]; [done|]. apply not_elem_of_dom in Hp.
      rewrite bool_decide_eq_false_2 by (rewrite Hp; by intros [? ?]).
      destruct (IH (os.add_dir p w)) as [-> ->].
      * eapply Forall_impl; [exact Hps|]. intros d [?|?]; [left|by right].
        cbn [os.add_dir dirs]. by apply elem_of_union_r.
      * split; [done|]. cbn [os.add_dir dirs].
        rewrite (comm_L (∪) {[p]} (list_to_set ps)). by rewrite (assoc_L (∪)).
Qed.

Lemma mkdir_chain_grows ps w :
  dirs w ⊆ dirs (os.mkdir_chain ps w).2
  /\ (forall d, d ∈ dirs (os.mkdir_chain ps w).2 ->
        d ∈ dirs w \/ (d ∈ ps /\ d ∉ dom (files w))).
Proof.
  revert w. induction ps as [|p ps IH]; intros w.
  - cbn [os.mkdir_chain]. split; [done|]. intros d Hd. by left.
  - cbn [os.mkdir_chain]. case_bool_decide as Hd.
    + destruct (IH w) as [H1 H2]. split; [done|]. intros d Hdd.
      destruct (H2 d Hdd) as [?|[? ?]]; [by left|right]. split; [by right|done].
    + case_bool_decide as Hf.
      * cbn [snd]. split; [done|]. intros d ?. by left.
      * destruct (IH (os.add_dir p w)) as [H1 H2]. cbn [os.add_dir dirs files] in *.
        assert (p ∉ dom (files w)) as Hp.
        { rewrite elem_of_dom. exact Hf. }
        split.
        -- intros d Hdd. apply H1. by apply elem_of_union_r.
        -- intros d Hdd. destruct (H2 d Hdd) as [[->%elem_of_singleton|?]%elem_of_union|[? ?]].
           ++ right. split; [by left|done].
           ++ by left.
           ++ right. split; [by right|done].
Qed.

Lemma mkdir_chain_needs ps w :
  (os.mkdir_chain ps w).1 = Ok tt -> Forall (free_for_dir w) ps.
Proof.
  revert w. induction ps as [|p ps IH]; intros w Hok; [constructor|].
  cbn [os.mkdir_chain] in Hok. case_bool_decide as Hd.
  - constructor; [by left|by apply IH].
  - case_bool_decide as Hf; [done|].
    assert (p ∉ dom (files w)) as Hp by (rewrite elem_of_dom; exact Hf).
    constructor; [by right|].
    eapply Forall_impl; [exact (IH _ Hok)|]. cbn [os.add_dir dirs files].
    intros d [[->%elem_of_singleton|?]%elem_of_union|?]; [by right|by left|by right].
Qed.

Lemma icon_pair_dirs entry w :
  dirs (icon_pair textbbox entry w).2
  = dirs (os.mkdir_chain (folder_chain entry) w).2.
Proof.
  destruct entry as [folder size]. unfold folder_chain. cbn [fst].
  unfold icon_pair. rewrite bind_run. unfold os.makedirs.
  destruct (os.mkdir_chain _ w) as [[[]|e] w1]; [|done]. cbn [snd].
  rewrite bind_run.
  pose proof (create_icon_keeps size
    (os.path_join (os.path_join base_path folder) "ic_launcher.png") w1) as [H1 _].
  destruct (create_icon textbbox size _ w1) as [[[]|e] w2]; cbn [snd] in *; [|done].
  rewrite <- H1. apply create_icon_keeps.
Qed.

Lemma icon_pair_needs entry w :
  0 < entry.2 -> (icon_pair textbbox entry w).1 = Ok tt -> turn_ready w entry.
Proof.
  destruct entry as [folder size]. cbn [snd]. intros Hs.
  unfold icon_pair, turn_ready, folder_chain, pair_jobs. cbn [fst].
  set (fp := os.path_join base_path folder).
  set (p1 := os.path_join fp "ic_launcher.png").
  set (p2 := os.path_join fp "ic_launcher_round.png").
  rewrite bind_run. unfold os.makedirs.
  pose proof (mkdir_chain_needs (os.chain fp) w) as Hneeds.
  destruct (mkdir_chain_grows (os.chain fp) w) as [Hsub _].
  destruct (os.mkdir_chain (os.chain fp) w) as [[[]|e] w1]; [|done]. cbn [fst snd] in *.
  rewrite bind_run, create_icon_run by done.
  destruct (writable w1 p1) eqn:Hw1; [|done].
  rewrite create_icon_run by done.
  destruct (writable (with_icon textbbox size p1 w1) p2) eqn:Hw2; [|done]. intros _.
  split; [by apply Hneeds|].
  repeat constructor; cbn [fst]; intros Hin; apply Hsub in Hin.
  - by apply (writable_not_dir w1 p1).
  - by apply (writable_not_dir (with_icon textbbox size p1 w1) p2).
Qed.

Lemma icon_pair_runs entry w :
  well_placed entry ->
  Forall (fun job : string * Z => job.1 ∉ folder_chain entry) (pair_jobs entry) ->
  turn_ready w entry ->
  (icon_pair textbbox entry w).1 = Ok tt
  /\ dirs (icon_pair textbbox entry w).2 = list_to_set (folder_chain entry) ∪ dirs w.
Proof.
  intros Hwp Hapart [Hchain Hjobs].
  destruct (mkdir_chain_runs _ _ Hchain) as [Hok Hdirs].
  split; [|by rewrite icon_pair_dirs].
  destruct entry as [folder size]. unfold well_placed, folder_chain, pair_jobs in *.
  cbn [fst snd] in *.
  set (fp := os.path_join base_path folder) in *.
  set (p1 := os.path_join fp "ic_launcher.png") in *.
  set (p2 := os.path_join fp "ic_launcher_round.png") in *.
  destruct Hwp as (Hs & Hch & Hd1 & Hd2 & Hn1 & Hn2).
  apply Forall_cons in Hapart as [Ha1 Hapart]. apply Forall_cons in Hapart as [Ha2 _].
  apply Forall_cons in Hjobs as [Hj1 Hjobs]. apply Forall_cons in Hjobs as [Hj2 _].
  cbn [fst] in *.
  unfold icon_pair. fold fp p1 p2. rewrite bind_run. unfold os.makedirs.
  destruct (os.mkdir_chain (os.chain fp) w) as [[[]|e] w1]; [|done]. cbn [fst snd] in *.
  assert (fp ∈ dirs w1) as Hfp.
  { rewrite Hdirs. apply elem_of_union_l, elem_of_list_to_set.
    rewrite Hch. apply elem_of_app. right. apply list_elem_of_here. }
  assert (p1 ∉ dirs w1) as Hp1.
  { rewrite Hdirs. apply not_elem_of_union. by rewrite elem_of_list_to_set. }
  assert (p2 ∉ dirs w1) as Hp2.
  { rewrite Hdirs. apply not_elem_of_union. by rewrite elem_of_list_to_set. }
  rewrite bind_run, create_icon_run by done.
  rewrite (writable_in_new_folder w1 fp p1) by done.
  rewrite create_icon_run by done.
  by rewrite (writable_in_new_folder _ fp p2).
Qed.

Lemma icon_pair_grows entry w :
  0 < entry.2 ->
  dirs w ⊆ dirs (icon_pair textbbox entry w).2
  /\ (forall d, d ∈ dirs (icon_pair textbbox entry w).2 ->
        d ∈ dirs w \/ (d ∈ folder_chain entry /\ d ∉ dom (files w)))
  /\ dom (files w) ⊆ dom (files (icon_pair textbbox entry w).2).
Proof.
  intros Hs. rewrite icon_pair_dirs.
  destruct (mkdir_chain_grows (folder_chain entry) w) as [H1 H2].
  split; [done|]. split; [done|].
  destruct (icon_pair_progress textbbox entry w Hs) as (j & _ & -> & _).
  rewrite written_dom. apply union_subseteq_r.
Qed.

Lemma for_loop_grows tbl w :
  Forall (fun entry : string * Z => 0 < entry.2) tbl ->
  dirs w ⊆ dirs (for_loop tbl (icon_pair textbbox) w).2
  /\ (forall d, d ∈ dirs (for_loop tbl (icon_pair textbbox) w).2 ->
        d ∈ dirs w \/ (d ∈ flat_map folder_chain tbl /\ d ∉ dom (files w)))
  /\ dom (files w) ⊆ dom (files (for_loop tbl (icon_pair textbbox) w).2).
Proof.
  intros Hpos. revert w. induction Hpos as [|entry tbl Hs _ IH]; intros w.
  - cbn [for_loop]. repeat split; try done. intros d ?. by left.
  - cbn [for_loop flat_map]. rewrite bind_run.
    destruct (icon_pair_grows entry w Hs) as (H1 & H2 & H3).
    destruct (icon_pair textbbox entry w) as [[[]|e] w1]; cbn [fst snd] in *.
    + destruct (IH w1) as (H4 & H5 & H6). split; [by etrans|]. split; [|by etrans].
      intros d Hd. destruct (H5 d Hd) as [Hd1|[Hin Hnf]].
      * destruct (H2 d Hd1) as [?|[? ?]]; [by left|right].
        split; [|done]. apply elem_of_app. by left.
      * right. split; [apply elem_of_app; by right|].
        intros Hin'. apply Hnf. by apply H3.
    + split; [done|]. split; [|done].
      intros d Hd. destruct (H2 d Hd) as [?|[? ?]]; [by left|right].
      split; [|done]. apply elem_of_app. by left.
Qed.

Lemma turn_ready_back w w' entry :
  dirs w ⊆ dirs w' ->
  (forall d, d ∈ dirs w' -> d ∈ dirs w \/ d ∉ dom (files w)) ->
  dom (files w) ⊆ dom (files w') ->
  turn_ready w' entry -> turn_ready w entry.
Proof.
  intros H1 H2 H3 [Hc Hj]. split.
  - eapply Forall_impl; [exact Hc|]. intros d [Hd|Hd].
    + destruct (H2 d Hd); [by left|by right].
    + right. intros Hin. apply Hd. by apply H3.
  - eapply Forall_impl; [exact Hj|]. intros job Hd Hin. apply Hd. by apply H1.
Qed.

(** If the loop returns, every turn found its paths free. *)
Lemma for_loop_needs tbl w :
  Forall (fun entry : string * Z => 0 < entry.2) tbl ->
  (for_loop tbl (icon_pair textbbox) w).1 = Ok tt -> Forall (turn_ready w) tbl.
Proof.
  intros Hpos. revert w. induction Hpos as [|entry tbl Hs _ IH]; intros w; [constructor|].
  cbn [for_loop]. rewrite bind_run.
  pose proof (icon_pair_needs entry w Hs) as Hneeds.
  destruct (icon_pair_grows entry w Hs) as (H1 & H2 & H3).
  destruct (icon_pair textbbox entry w) as [[[]|e] w1]; cbn [fst snd] in *; [|done].
  intros Hok. constructor; [by apply Hneeds|].
  eapply Forall_impl; [exact (IH w1 Hok)|]. intros entry'.
  apply turn_ready_back; [done| |done].
  intros d Hd. destruct (H2 d Hd) as [?|[? ?]]; [by left|by right].
Qed.

(** If every turn finds its paths free, the loop returns. *)
Lemma for_loop_runs tbl w :
  Forall well_placed tbl -> tree_apart tbl -> Forall (turn_ready w) tbl ->
  (for_loop tbl (icon_pair textbbox) w).1 = Ok tt
  /\ dirs (for_loop tbl (icon_pair textbbox) w).2
     = list_to_set (flat_map folder_chain tbl) ∪ dirs w.
Proof.
  intros Hwp. revert w. induction Hwp as [|entry tbl He _ IH]; intros w Hapart Hready.
  - cbn [for_loop flat_map list_to_set]. split; [done|]. by rewrite (left_id_L ∅ (∪)).
  - apply Forall_cons in Hready as [Hr Hready].
    unfold tree_apart in Hapart. cbn [flat_map] in Hapart.
    rewrite fmap_app in Hapart. apply Forall_app in Hapart as [Ha1 Ha2].
    rewrite Forall_forall in Ha1, Ha2.
    assert (Forall (fun job : string * Z => job.1 ∉ folder_chain entry) (pair_jobs entry))
      as Hown.
    { apply Forall_forall. intros job Hjob Hin. apply (Ha1 _ Hin).
      apply elem_of_app. left. by apply list_elem_of_fmap_2. }
    destruct (icon_pair_runs entry w He Hown Hr) as [Hok Hdirs].
    assert (0 < entry.2) as Hs by (by destruct He).
    destruct (icon_pair_progress textbbox entry w Hs) as (j & _ & Hfiles & _ & Hj & _).
    cbn [for_loop flat_map]. rewrite bind_run.
    destruct (icon_pair textbbox entry w) as [[[]|e] w1]; cbn [fst snd] in *; [|done].
    rewrite (Hj eq_refl) in Hfiles.
    rewrite firstn_all2 in Hfiles by (rewrite pair_jobs_length; lia).
    destruct (IH w1) as [Hok' Hdirs'].
    + apply Forall_forall. intros d Hd. intros Hin. apply (Ha2 d Hd).
      apply elem_of_app. by right.
    + rewrite Forall_forall in Hready |- *. intros entry' Hin.
      destruct (Hready entry' Hin) as [Hc Hjobs]. split.
      * rewrite Forall_forall in Hc |- *. intros d Hd.
        destruct (Hc d Hd) as [?|Hnf]; [left; rewrite Hdirs; by apply elem_of_union_r|].
        right. rewrite Hfiles, written_dom. apply not_elem_of_union. split; [|done].
        rewrite elem_of_list_to_set. intros Hin'. apply (Ha2 d).
        -- apply list_elem_of_In, in_flat_map. exists entry'.
           split; by apply list_elem_of_In.
        -- apply elem_of_app. by left.
      * rewrite Forall_forall in Hjobs |- *. intros job Hjob.
        rewrite Hdirs. apply not_elem_of_union. split; [|by apply Hjobs].
        rewrite elem_of_list_to_set. intros Hin'. apply (Ha1 _ Hin').
        apply elem_of_app. right. apply list_elem_of_fmap_2.
        apply list_elem_of_In, in_flat_map. exists entry'. split; by apply list_elem_of_In.
    + split; [done|]. rewrite Hdirs', Hdirs. cbn [flat_map]. rewrite list_to_set_app_L.
      apply set_eq. intros x. rewrite !elem_of_union. tauto.
Qed.

Lemma icon_pair_trace entry w :
  0 < entry.2 ->
  exists j : nat,
    (j <= 2)%nat
    /\ files (icon_pair textbbox entry w).2
       = written textbbox (fonts w) (take j (pair_jobs entry)) (files w)
    /\ stdout (icon_pair textbbox entry w).2
       = stdout w ++ (job_line <$> take j (pair_jobs entry))
    /\ ((icon_pair textbbox entry w).1 = Ok tt -> j = 2%nat)
    /\ (forall e, (icon_pair textbbox entry w).1 = Raise e -> (j < 2)%nat).
Proof.
  destruct entry as [folder size]. cbn [snd]. intros Hs.
  unfold icon_pair, pair_jobs, mbind, M_bind.
  set (fp := os.path_join base_path folder).
  set (p1 := os.path_join fp "ic_launcher.png").
  set (p2 := os.path_join fp "ic_launcher_round.png").
  destruct (mkdir_chain_keeps (os.chain fp) w) as (Hf1 & Hn1 & Ho1).
  fold (os.makedirs fp) in Hf1, Hn1, Ho1.
  destruct (os.makedirs fp w) as [[[]|e1] w1]; cbn [fst snd] in *.
  - rewrite create_icon_run by done.
    destruct (writable w1 p1).
    + rewrite create_icon_run by done.
      destruct (writable (with_icon textbbox size p1 w1) p2);
        cbn [fst snd with_icon emit write_file files fonts stdout take written foldl
             fmap list_fmap job_line].
      * exists 2%nat. rewrite Hf1, Hn1, Ho1, <- app_assoc.
        repeat split; intros; simplify_eq; done || lia.
      * exists 1%nat. rewrite Hf1, Hn1, Ho1. repeat split; intros; simplify_eq; done || lia.
    + exists 0%nat. cbn [fst snd take written foldl fmap list_fmap]. rewrite Hf1, Ho1, app_nil_r.
      repeat split; intros; simplify_eq; done || lia.
  - exists 0%nat. cbn [fst snd take written foldl fmap list_fmap]. rewrite Hf1, Ho1, app_nil_r.
    repeat split; intros; simplify_eq; done || lia.
Qed.

Lemma for_loop_trace tbl w :
  Forall (fun entry : string * Z => 0 < entry.2) tbl ->
  let js := flat_map pair_jobs tbl in
  let r := for_loop tbl (icon_pair textbbox) w in
  exists k : nat,
    (k <= length js)%nat
    /\ files r.2 = written textbbox (fonts w) (take k js) (files w)
    /\ stdout r.2 = stdout w ++ (job_line <$> take k js)
    /\ (r.1 = Ok tt -> k = length js)
    /\ (forall e, r.1 = Raise e -> (k < length js)%nat).
Proof.
  intros Hpos. revert w. induction Hpos as [|entry tbl Hs _ IH]; intros w; cbn zeta.
  - exists 0%nat. cbn [for_loop flat_map take fmap list_fmap snd fst written foldl length].
    rewrite app_nil_r. repeat split; try done.
  - cbn [for_loop flat_map]. unfold mbind, M_bind.
    destruct (icon_pair_trace entry w Hs) as (j & Hj & Hfj & Hoj & Hok & Hraise).
    destruct (icon_pair_progress textbbox entry w Hs) as (_ & _ & _ & Hnj & _).
    rewrite length_app, pair_jobs_length.
    destruct (icon_pair textbbox entry w) as [[[]|e1] w1]; cbn [fst snd] in *.
    + specialize (Hok eq_refl) as ->.
      destruct (IH w1) as (k & Hk & Hfk & Hok' & Hok'' & Hraise'). cbn zeta in *.
      exists (2 + k)%nat. split; [lia|].
      rewrite take_app_ge by (rewrite pair_jobs_length; lia).
      rewrite pair_jobs_length, written_app, fmap_app.
      replace (2 + k - 2)%nat with k by lia.
      rewrite firstn_all2 in Hfj, Hoj by (rewrite pair_jobs_length; lia).
      rewrite Hfk, Hok', Hnj, Hfj, Hoj, <- app_assoc. repeat split; try done.
      * intros H. by rewrite (Hok'' H).
      * intros e H. specialize (Hraise' e H). lia.
    + specialize (Hraise e1 eq_refl).
      exists j. split; [lia|].
      rewrite take_app_le by (rewrite pair_jobs_length; lia).
      repeat split; intros; simplify_eq; done || lia.
Qed.

(** [main] is its loop between two banners. *)
Lemma main_unfold w :
  main textbbox w
  = match for_loop sizes (icon_pair textbbox)
            (emit_all opening_lines w) with
    | (Ok _, w1) => (Ok tt, emit_all closing_lines w1)
    | (Raise e, w1) => (Raise e, w1)
    end.
Proof.
  unfold main, emit_all. rewrite !print_then, bind_run. cbn [foldl opening_lines].
  destruct (for_loop sizes _ _) as [[[]|e] w1]; [|done]. by rewrite !print_then.
Qed.

Lemma foldl_emit lines w :
  dirs (emit_all lines w) = dirs w
  /\ files (emit_all lines w) = files w
  /\ fonts (emit_all lines w) = fonts w
  /\ stdout (emit_all lines w) = stdout w ++ lines.
Proof.
  unfold emit_all. revert w. induction lines as [|l lines IH]; intros w.
  - cbn [foldl]. by rewrite app_nil_r.
  - cbn [foldl]. destruct (IH (emit l w)) as (-> & -> & -> & ->).
    cbn [emit dirs files fonts stdout]. by rewrite <- app_assoc.
Qed.

Lemma sizes_apart : tree_apart sizes.
Proof. apply (bool_decide_unpack (tree_apart sizes)). vm_compute. exact I. Qed.

Lemma folder_chains_tree d : d ∈ flat_map folder_chain sizes <-> d ∈ tree_dirs.
Proof.
  assert (Forall (fun d => d ∈ tree_dirs) (flat_map folder_chain sizes)) as H1.
  { apply (bool_decide_unpack (Forall (fun d => d ∈ tree_dirs) (flat_map folder_chain sizes))).
    vm_compute. exact I. }
  assert (Forall (fun d => d ∈ flat_map folder_chain sizes) tree_dirs) as H2.
  { apply (bool_decide_unpack (Forall (fun d => d ∈ flat_map folder_chain sizes) tree_dirs)).
    vm_compute. exact I. }
  rewrite Forall_forall in H1, H2. split; [apply H1|apply H2].
Qed.

Lemma turn_ready_emit lines w entry :
  turn_ready (emit_all lines w) entry <-> turn_ready w entry.
Proof.
  unfold turn_ready, free_for_dir.
  destruct (foldl_emit lines w) as (-> & -> & _). done.
Qed.

Lemma sizes_ready w : Forall (turn_ready w) sizes <-> can_run w.
Proof.
  unfold can_run, turn_ready. rewrite Forall_and.
  rewrite <- !Forall_flat_map. fold jobs. rewrite Forall_fmap.
  assert (Forall (free_for_dir w) (flat_map folder_chain sizes)
          <-> Forall (free_for_dir w) tree_dirs) as ->; [|done].
  rewrite !Forall_forall.
  split; intros H d Hd; apply H; by apply folder_chains_tree.
Qed.

End Unblocked.

(** ** The icon tree after the batch *)

Section Tree.
Variable textbbox : Z * Z -> string -> font -> box.


Lemma main_returns w :
  (main textbbox w).1 = Ok tt <-> Forall (turn_ready w) sizes.
Proof.
  rewrite main_unfold. set (w0 := emit_all opening_lines w).
  rewrite <- (Forall_iff _ sizes _ (turn_ready_emit opening_lines w)). fold w0.
  split.
  - intros Hok. apply (for_loop_needs textbbox); [apply sizes_positive|].
    by destruct (for_loop sizes (icon_pair textbbox) w0) as [[[]|e] w1].
  - intros Hready.
    destruct (for_loop_runs textbbox sizes w0 sizes_well_placed sizes_apart Hready) as [Hok _].
    by destruct (for_loop sizes (icon_pair textbbox) w0) as [[[]|e] w1].
Qed.

Lemma written_twice fnts js fs :
  NoDup js.*1 ->
  written textbbox fnts js (written textbbox fnts js fs) = written textbbox fnts js fs.
Proof.
  intros Hnd. apply map_eq. intros p. destruct (decide (p ∈ js.*1)) as [Hin|Hout].
  - apply list_elem_of_fmap in Hin as ([q s] & -> & Hin). cbn [fst].
    by rewrite !(written_lookup textbbox fnts js _ q s).
  - by rewrite !written_lookup_other.
Qed.

(** The machine [main] leaves when it returns. *)
Lemma main_ok_state w :
  (main textbbox w).1 = Ok tt ->
  dirs (main textbbox w).2 = list_to_set tree_dirs ∪ dirs w
  /\ files (main textbbox w).2 = written textbbox (fonts w) jobs (files w)
  /\ fonts (main textbbox w).2 = fonts w.
Proof.
  intros Hok.
  destruct (main_progress textbbox w) as (k & _ & Hf & Hn & Hk & _).
  rewrite (Hk Hok) in Hf. change (take 10 jobs) with jobs in Hf.
  split; [|done].
  apply main_returns in Hok.
  revert Hok. rewrite main_unfold. set (w0 := emit_all opening_lines w).
  rewrite <- (Forall_iff _ sizes _ (turn_ready_emit opening_lines w)). fold w0.
  intros Hready.
  destruct (for_loop_runs textbbox sizes w0 sizes_well_placed sizes_apart Hready)
    as [Hok Hd].
  destruct (for_loop sizes (icon_pair textbbox) w0) as [[[]|e] w1]; [|done].
  cbn [fst snd] in *.
  destruct (foldl_emit closing_lines w1) as (-> & _).
  destruct (foldl_emit opening_lines w) as (Hd0 & _). fold w0 in Hd0.
  rewrite Hd, Hd0. apply set_eq. intros d.
  rewrite !elem_of_union, !elem_of_list_to_set, folder_chains_tree. done.
Qed.

Lemma jobs_not_dirs : Forall (fun p => p ∉ tree_dirs) jobs.*1.
Proof. apply (bool_decide_unpack (Forall (fun p => p ∉ tree_dirs) jobs.*1)). vm_compute. exact I. Qed.

Lemma main_state_grows w :
  fonts (main textbbox w).2 = fonts w
  /\ dirs w ⊆ dirs (main textbbox w).2
  /\ (forall d, d ∈ dirs (main textbbox w).2 ->
        d ∈ dirs w \/ (d ∈ tree_dirs /\ d ∉ dom (files w)))
  /\ dom (files w) ⊆ dom (files (main textbbox w).2).
Proof.
  destruct (main_progress textbbox w) as (k & _ & Hf & Hn & _).
  split; [done|]. rewrite Hf, written_dom.
  rewrite main_unfold. set (w0 := emit_all opening_lines w).
  destruct (for_loop_grows textbbox sizes w0 sizes_positive) as (H1 & H2 & _).
  destruct (foldl_emit opening_lines w) as (Hd0 & Hf0 & _). fold w0 in Hd0, Hf0.
  rewrite Hd0, Hf0 in *. setoid_rewrite folder_chains_tree in H2.
  destruct (for_loop sizes (icon_pair textbbox) w0) as [[[]|e] w1]; cbn [fst snd] in *.
  - destruct (foldl_emit closing_lines w1) as (-> & _).
    repeat split; try done. apply union_subseteq_r.
  - repeat split; try done. apply union_subseteq_r.
Qed.

End Tree.

(** ** What the batch prints *)

Section Console.
Variable textbbox : Z * Z -> string -> font -> box.

Lemma main_trace w :
  exists k : nat,
    (k <= 10)%nat
    /\ files (main textbbox w).2 = written textbbox (fonts w) (take k jobs) (files w)
    /\ stdout (main textbbox w).2
       = stdout w ++ opening_lines ++ (job_line <$> take k jobs)
         ++ (if is_ok (main textbbox w).1 then closing_lines else [])
    /\ ((main textbbox w).1 = Ok tt <-> k = 10%nat).
Proof.
  rewrite main_unfold. set (w0 := emit_all opening_lines w).
  destruct (for_loop_trace textbbox sizes w0 sizes_positive) as (k & Hk & Hf & Ho & Hok & Hraise).
  cbn zeta in *. fold jobs in Hk, Hf, Ho, Hok, Hraise.
  assert (length jobs = 10%nat) as Hlen by reflexivity. rewrite Hlen in *.
  destruct (foldl_emit opening_lines w) as (_ & Hf0 & Hn0 & Ho0). fold w0 in Hf0, Hn0, Ho0.
  rewrite Hf0, Hn0 in Hf. rewrite Ho0 in Ho.
  exists k. split; [done|].
  destruct (for_loop sizes (icon_pair textbbox) w0) as [[[]|e1] w1]; cbn [fst snd is_ok] in *.
  - destruct (foldl_emit closing_lines w1) as (_ & -> & _ & ->).
    rewrite Ho, <- !app_assoc. repeat split; try done.
  - rewrite Ho, app_nil_r, <- !app_assoc. repeat split; try done.
    intros ->. specialize (Hraise e1 eq_refl). lia.
Qed.

Lemma banner_not_a_job_line : Forall (fun line => line <> success_banner) (job_line <$> jobs).
Proof.
  apply (bool_decide_unpack (Forall (fun line => line <> success_banner) (job_line <$> jobs))).
  vm_compute. exact I.
Qed.

End Console.


(** ** The shades of the gradient *)

Section Channel.
Import Py.

Lemma int_of_float_bound B y :
  0 <= B -> below B y -> exists n, int_of_float y = Ok n /\ 0 <= n < 2 ^ B.
Proof.
  intros HB [->|(m & e & -> & Hd)]; cbn [int_of_float].
  - exists 0. split; [done|]. split; [lia|]. apply Z.pow_pos_nonneg; lia.
  - eexists; split; [done|].
    destruct (Zdigits2_bounds (Zpos m) ltac:(lia)) as [_ Hm].
    pose proof (Zdigits2_nonneg (Zpos m)) as Hdg.
    set (d := Zdigits2 (Zpos m)) in *.
    destruct e as [|p|p].
    + rewrite Z.shiftl_0_r. split; [lia|].
      eapply Z.lt_le_trans; [exact Hm|]. apply Z.pow_le_mono_r; lia.
    + rewrite Z.shiftl_mul_pow2 by lia. split; [apply Z.mul_nonneg_nonneg; lia|].
      apply Z.lt_le_trans with (2 ^ d * 2 ^ Zpos p).
      * apply Z.mul_lt_mono_pos_r; [apply Z.pow_pos_nonneg; lia|done].
      * rewrite <- Z.pow_add_r by lia. apply Z.pow_le_mono_r; lia.
    + rewrite Z.shiftr_div_pow2 by lia.
      assert (0 < 2 ^ Zpos p) as Hp by (apply Z.pow_pos_nonneg; lia).
      split; [apply Z.div_pos; lia|].
      destruct (Z.le_gt_cases d (Zpos p)) as [Hle|Hgt].
      * rewrite Z.div_small; [apply Z.pow_pos_nonneg; lia|].
        split; [lia|]. eapply Z.lt_le_trans; [exact Hm|]. apply Z.pow_le_mono_r; lia.
      * apply Z.div_lt_upper_bound; [done|].
        apply Z.lt_le_trans with (2 ^ d); [done|].
        rewrite <- Z.pow_add_r by lia. apply Z.pow_le_mono_r; lia.
Qed.

Lemma band_alpha_channel h i : 0 <= i < h -> 0 <= band_alpha h i < 128.
Proof.
  intros Hi. unfold band_alpha.
  destruct (truediv_below i h Hi) as (y & -> & Hy). cbn [mbind result_bind].
  destruct (int_of_float_bound 7 _ ltac:(lia) (int_mul_float_30_below y Hy)) as (n & -> & Hn).
  done.
Qed.

End Channel.

Section Shades.
Variable textbbox : Z * Z -> string -> font -> box.

Lemma gradient_bands_lookup size (i : nat) s :
  gradient_bands size !! i = Some s ->
  0 <= Z.of_nat i < size / 2 /\ s = band_shape size (Z.of_nat i).
Proof.
  unfold gradient_bands, Py.range. rewrite list_lookup_fmap.
  destruct (seqZ 0 (size / 2) !! i) as [k|] eqn:Hk; [|done].
  apply lookup_seqZ in Hk as [-> Hk]. cbn [fmap option_fmap option_map].
  intros [= <-]. split; [lia|]. f_equal; lia.
Qed.

Lemma paint_icon_overlay fonts size :
  0 < size ->
  exists im overlay,
    paint_icon textbbox fonts size = Ok im
    /\ image_overlays im = [overlay]
    /\ image_shapes overlay = gradient_bands size.
Proof.
  intros Hs. eexists _, _. split; [by apply paint_icon_ok|].
  unfold icon_image. rewrite image_overlays_layout. split; [done|].
  apply image_shapes_overlay.
Qed.

End Shades.

(** ** The shapes on the canvas *)

Section Layout.
Variable textbbox : Z * Z -> string -> font -> box.

Lemma paint_icon_shapes fonts size :
  0 < size ->
  let fnt := picked_font fonts (Z.max (size / 8) 12) in
  exists im,
    paint_icon textbbox fonts size = Ok im
    /\ image_shapes im = icon_shapes size fnt (textbbox (0, 0) "ID" fnt).
Proof.
  intros Hs fnt. eexists. split; [by apply paint_icon_ok|].
  unfold icon_image. by rewrite image_shapes_layout.
Qed.

End Layout.

(** ** Runs of the script *)

Example tree_dirs_listed :
  tree_dirs
  = ["android"; "android/app"; "android/app/src"; "android/app/src/main";
     "android/app/src/main/res";
     "android/app/src/main/res/mipmap-mdpi";
     "android/app/src/main/res/mipmap-hdpi";
     "android/app/src/main/res/mipmap-xhdpi";
     "android/app/src/main/res/mipmap-xxhdpi";
     "android/app/src/main/res/mipmap-xxxhdpi"].
Proof. reflexivity. Qed.


Example path_join_icon :
  os.path_join (os.path_join "android/app/src/main/res" "mipmap-hdpi") "ic_launcher.png"
  = "android/app/src/main/res/mipmap-hdpi/ic_launcher.png".
Proof. reflexivity. Qed.

Example chain_res :
  os.chain "android/app/src/main/res"
  = ["android"; "android/app"; "android/app/src"; "android/app/src/main";
     "android/app/src/main/res"].
Proof. reflexivity. Qed.

Example dirname_icon :
  os.dirname "android/app/src/main/res/mipmap-hdpi/ic_launcher.png"
  = "android/app/src/main/res/mipmap-hdpi".
Proof. reflexivity. Qed.

(** [int(49 * (1 / 49))] is 0 in doubles: the product rounds below 1. *)
Example doubles_round :
  Py.int_of_float (Py.int_mul_float 49 (SFdiv Py.prec Py.emax
     (S754_finite false 1 0) (S754_finite false 49 0))) = Ok 0.
Proof. reflexivity. Qed.

(** Why [band_computation_floor] has a bound: far beyond every canvas the
    doubles give 23 where the floor is 22. *)
Example doubles_beyond_canvas :
  band_alpha (huge_size / 2) huge_band = 23
  /\ 30 * huge_band / (huge_size / 2) = 22.
Proof. split; vm_compute; reflexivity. Qed.

Example band_alphas_12 :
  band_alpha 6 <$> Py.range 6 = [0; 5; 10; 15; 20; 25].
Proof. reflexivity. Qed.

Example icon_12 :
  paint_icon sample_textbbox ∅ 12
  = Ok (draw_all
          (Composite
             (Drawn (Blank "RGBA" (12, 12) (RGBA 0 0 0 0))
                    (Ellipse (0, 0, 12, 12) (RGB 33 150 243)))
             (draw_all (Blank "RGBA" (12, 12) (RGBA 0 0 0 0))
                [ Ellipse (0, 0, 12, 12) (RGBA 0 0 0 0);
                  Ellipse (0, 1, 12, 12) (RGBA 0 0 0 5);
                  Ellipse (0, 2, 12, 12) (RGBA 0 0 0 10);
                  Ellipse (0, 3, 12, 12) (RGBA 0 0 0 15);
                  Ellipse (0, 4, 12, 12) (RGBA 0 0 0 20);
                  Ellipse (0, 5, 12, 12) (RGBA 0 0 0 25) ]))
          [ Text (1, 2) "ID" (RGBA 0 0 0 100) DefaultFont;
            Text (0, 1) "ID" (RGB 255 255 255) DefaultFont;
            Rectangle (5, 9, 7, 10) (RGB 255 193 7);
            Ellipse (6, 9, 6, 9) (RGBA 0 0 0 150) ]).
Proof. reflexivity. Qed.

Example main_prints :
  stdout (main sample_textbbox res_machine).2
  = [ "Generating IDSnap app icons...";
      "========================================";
      "Created icon: android/app/src/main/res/mipmap-mdpi/ic_launcher.png (48x48)";
      "Created icon: android/app/src/main/res/mipmap-mdpi/ic_launcher_round.png (48x48)";
      "Created icon: android/app/src/main/res/mipmap-hdpi/ic_launcher.png (72x72)";
      "Created icon: android/app/src/main/res/mipmap-hdpi/ic_launcher_round.png (72x72)";
      "Created icon: android/app/src/main/res/mipmap-xhdpi/ic_launcher.png (96x96)";
      "Created icon: android/app/src/main/res/mipmap-xhdpi/ic_launcher_round.png (96x96)";
      "Created icon: android/app/src/main/res/mipmap-xxhdpi/ic_launcher.png (144x144)";
      "Created icon: android/app/src/main/res/mipmap-xxhdpi/ic_launcher_round.png (144x144)";
      "Created icon: android/app/src/main/res/mipmap-xxxhdpi/ic_launcher.png (192x192)";
      "Created icon: android/app/src/main/res/mipmap-xxxhdpi/ic_launcher_round.png (192x192)";
      "========================================";
      "✓ All icons generated successfully!";
      "✓ Icons are ready for APK build";
      newline +:+ "To rebuild APK with new icons:";
      "1. cd android";
      "2. ./gradlew clean";
      "3. ./gradlew assembleRelease" ].
Proof. vm_compute. reflexivity. Qed.

(** Run in a directory that holds nothing, [main] also creates the output
    root and its four ancestors: ten directories in all. *)
Example main_creates_missing_root :
  (main sample_textbbox (World ∅ ∅ ∅ [])).1 = Ok tt
  /\ dirs (main sample_textbbox (World ∅ ∅ ∅ [])).2
     = list_to_set (os.chain base_path ++ folders)
  /\ size (dirs (main sample_textbbox (World ∅ ∅ ∅ [])).2) = 10%nat.
Proof. repeat split; vm_compute; reflexivity. Qed.

(** On [blocked_machine] the batch stops at the third folder: the four
    icons of the first two folders are there, next to the file in the way. *)
Example blocked_batch_stops :
  (main sample_textbbox blocked_machine).1 = Raise OSError
  /\ dom (files (main sample_textbbox blocked_machine).2)
     = list_to_set ("android/app/src/main/res/mipmap-xhdpi" :: (take 4 jobs).*1)
  /\ stdout (main sample_textbbox blocked_machine).2
     = [ "Generating IDSnap app icons...";
         "========================================";
         "Created icon: android/app/src/main/res/mipmap-mdpi/ic_launcher.png (48x48)";
         "Created icon: android/app/src/main/res/mipmap-mdpi/ic_launcher_round.png (48x48)";
         "Created icon: android/app/src/main/res/mipmap-hdpi/ic_launcher.png (72x72)";
         "Created icon: android/app/src/main/res/mipmap-hdpi/ic_launcher_round.png (72x72)" ].
Proof. repeat split; vm_compute; reflexivity. Qed.

(** * The claims *)

(** C1, as amended.  For every size > 0 the camera body is the one
    rectangle drawn, [size // 6] wide and [(size // 6) // 2] high, and the
    lens is the ellipse drawn after it, [(size // 6) // 3] wide and high. *)
Theorem camera_and_lens_extent textbbox fonts size :
  0 < size ->
  exists im badge shadow label cam lens,
    paint_icon textbbox fonts size = Ok im
    /\ image_shapes im
       = [badge; shadow; label;
          Rectangle cam (RGB 255 193 7); Ellipse lens (RGBA 0 0 0 150)]
    /\ box_width cam = size / 6 /\ box_height cam = size / 6 / 2
    /\ box_width lens = size / 6 / 3 /\ box_height lens = size / 6 / 3.
Proof.
  intros Hs. eexists _, _, _, _, _, _. split; [by apply paint_icon_ok|].
  unfold icon_image. rewrite image_shapes_layout, icon_shapes_unfold.
  split; [reflexivity|].
  destruct (camera_box_extent size (textbbox (0, 0) "ID"
              (picked_font fonts (Z.max (size / 8) 12)))) as (_ & Hw & Hh).
  destruct (lens_box_extent size (textbbox (0, 0) "ID"
              (picked_font fonts (Z.max (size / 8) 12)))) as (_ & Hlw & Hlh).
  done.
Qed.

Lemma camera_and_lens_extent_witness :
  0 < 48
  /\ exists im badge shadow label cam lens,
       paint_icon sample_textbbox ∅ 48 = Ok im
       /\ image_shapes im
          = [badge; shadow; label;
             Rectangle cam (RGB 255 193 7); Ellipse lens (RGBA 0 0 0 150)]
       /\ box_width cam = 8 /\ box_height cam = 4
       /\ box_width lens = 2 /\ box_height lens = 2.
Proof. split; [lia | apply (camera_and_lens_extent sample_textbbox ∅ 48); lia]. Defined.

(** C1, as stated, fails: at size 48 the camera body is 8 wide and 4 high,
    not a square of side 8. *)
Lemma camera_body_not_square :
  ~ (forall textbbox fonts size im cam fill,
       0 < size -> paint_icon textbbox fonts size = Ok im ->
       Rectangle cam fill ∈ image_shapes im ->
       box_width cam = size / 6 /\ box_height cam = size / 6).
Proof.
  intros H.
  destruct (H sample_textbbox ∅ 48 (icon_image sample_textbbox ∅ 48)
              (20, 26, 28, 30) (RGB 255 193 7)) as [_ Hh].
  - lia.
  - by apply paint_icon_ok.
  - unfold icon_image. rewrite image_shapes_layout.
    vm_compute. do 3 apply list_elem_of_further. apply list_elem_of_here.
  - vm_compute in Hh. discriminate Hh.
Qed.

(** C2. For every size > 0 for which [create_icon] gets to composite the
    overlay, the overlay consists of one band per index [i] of
    [range(size // 2)], in order, and band [i] is drawn with alpha
    [floor (30 * i / (size // 2))].  The sizes are those up to [2 ^ 48]:
    they include every size for which [Image.new] returns a canvas, whose
    sides are C integers, below [2 ^ 31]. *)
Theorem gradient_bands_alpha textbbox fonts size :
  0 < size -> size <= 2 ^ 48 ->
  exists im overlay,
    paint_icon textbbox fonts size = Ok im
    /\ image_overlays im = [overlay]
    /\ image_shapes overlay = floor_band size <$> Py.range (size / 2)
    /\ length (image_shapes overlay) = Z.to_nat (size / 2).
Proof.
  intros Hs Hb. eexists _, _. split; [by apply paint_icon_ok|].
  unfold icon_image. rewrite image_overlays_layout. split; [done|].
  rewrite image_shapes_overlay.
  assert (size / 2 <= 2 ^ 47) as Hh.
  { change (2 ^ 48) with (2 * 2 ^ 47) in Hb. apply Z.div_le_upper_bound; lia. }
  rewrite gradient_bands_floor by done. split; [done|].
  unfold Py.range. by rewrite length_fmap, length_seqZ.
Qed.

Lemma gradient_bands_alpha_witness :
  0 < 48 /\ 48 <= 2 ^ 48
  /\ exists im overlay,
       paint_icon sample_textbbox ∅ 48 = Ok im
       /\ image_overlays im = [overlay]
       /\ image_shapes overlay = floor_band 48 <$> Py.range 24
       /\ length (image_shapes overlay) = 24%nat.
Proof.
  split; [lia|]. split; [done|].
  apply (gradient_bands_alpha sample_textbbox ∅ 48); [lia|done].
Defined.

(** C3. On an output root that exists and holds none of the icon folders
    and files (an empty one in particular), [main] returns normally, creates
    exactly the five mipmap folders and writes exactly ten new files,
    [ic_launcher.png] and [ic_launcher_round.png] in each folder, each a PNG
    of the folder's pixel size. *)
Theorem batch_writes_ten_icons textbbox w :
  fresh_root w ->
  (main textbbox w).1 = Ok tt
  /\ dirs (main textbbox w).2 ∖ dirs w
     = list_to_set [ "android/app/src/main/res/mipmap-mdpi";
                     "android/app/src/main/res/mipmap-hdpi";
                     "android/app/src/main/res/mipmap-xhdpi";
                     "android/app/src/main/res/mipmap-xxhdpi";
                     "android/app/src/main/res/mipmap-xxxhdpi" ]
  /\ size (dirs (main textbbox w).2 ∖ dirs w) = 5%nat
  /\ dom (files (main textbbox w).2) ∖ dom (files w) = list_to_set jobs.*1
  /\ size (dom (files (main textbbox w).2) ∖ dom (files w)) = 10%nat
  /\ Forall (fun job =>
               (job.1 ∉ dom (files w))
               /\ exists im, files (main textbbox w).2 !! job.1 = Some (File "PNG" im)
                             /\ image_size im = (job.2, job.2))
       [ ("android/app/src/main/res/mipmap-mdpi/ic_launcher.png", 48);
         ("android/app/src/main/res/mipmap-mdpi/ic_launcher_round.png", 48);
         ("android/app/src/main/res/mipmap-hdpi/ic_launcher.png", 72);
         ("android/app/src/main/res/mipmap-hdpi/ic_launcher_round.png", 72);
         ("android/app/src/main/res/mipmap-xhdpi/ic_launcher.png", 96);
         ("android/app/src/main/res/mipmap-xhdpi/ic_launcher_round.png", 96);
         ("android/app/src/main/res/mipmap-xxhdpi/ic_launcher.png", 144);
         ("android/app/src/main/res/mipmap-xxhdpi/ic_launcher_round.png", 144);
         ("android/app/src/main/res/mipmap-xxxhdpi/ic_launcher.png", 192);
         ("android/app/src/main/res/mipmap-xxxhdpi/ic_launcher_round.png", 192) ].
Proof.
  intros Hroot. pose proof Hroot as [Hbase Hfresh].
  rewrite Forall_forall in Hfresh.
  assert (Forall (fun p => p ∉ dirs w) folders) as Hfolders.
  { eapply Forall_impl; [apply folders_in_batch|]. intros p Hp. by apply Hfresh. }
  assert (Forall (fun p => p ∉ dom (files w)) jobs.*1) as Hjobs.
  { eapply Forall_impl; [apply job_paths_in_batch|]. intros p Hp. by apply Hfresh. }
  assert ((main textbbox w).1 = Ok tt) as Hok by (by rewrite main_fresh).
  destruct (main_progress textbbox w) as (k & _ & Hf & _ & Hk & _).
  rewrite (Hk Hok) in Hf. change (take 10 jobs) with jobs in Hf.
  assert (dirs (main textbbox w).2 ∖ dirs w = list_to_set folders) as Hd.
  { rewrite main_fresh by done. cbn [snd]. rewrite after_main_dirs.
    by apply created_exactly. }
  assert (dom (files (main textbbox w).2) ∖ dom (files w) = list_to_set jobs.*1) as Hdom.
  { rewrite Hf, written_dom. by apply created_exactly. }
  split; [done|]. split; [exact Hd|]. split; [by rewrite Hd|].
  split; [exact Hdom|]. split; [by rewrite Hdom|].
  change (Forall (fun job =>
                    (job.1 ∉ dom (files w))
                    /\ exists im, files (main textbbox w).2 !! job.1 = Some (File "PNG" im)
                                  /\ image_size im = (job.2, job.2)) jobs).
  apply Forall_forall. intros [p s] Hin. cbn [fst snd]. split.
  - rewrite Forall_forall in Hjobs. apply Hjobs.
    apply list_elem_of_fmap. by exists (p, s).
  - exists (icon_image textbbox (fonts w) s). split; [|apply image_size_icon].
    rewrite Hf. apply written_lookup; [apply jobs_NoDup|done].
Qed.

Lemma batch_writes_ten_icons_witness :
  fresh_root res_machine
  /\ (main sample_textbbox res_machine).1 = Ok tt
  /\ size (dirs (main sample_textbbox res_machine).2 ∖ dirs res_machine) = 5%nat
  /\ size (dom (files (main sample_textbbox res_machine).2) ∖ dom (files res_machine))
     = 10%nat.
Proof.
  assert (fresh_root res_machine) as Hroot.
  { apply (bool_decide_unpack (fresh_root res_machine)). vm_compute. exact I. }
  split; [exact Hroot|].
  destruct (batch_writes_ten_icons sample_textbbox res_machine Hroot)
    as (Hok & _ & Hd & _ & Hf & _).
  split; [exact Hok|]. split; [exact Hd|exact Hf].
Defined.

(** C4. For every size > 0, the font is the first that loads of DejaVu
    Sans Bold, Arial and the built-in default, at [max(size // 8, 12)] pixels;
    whichever of the two font files are missing, resolving the font does not
    raise and the drawing succeeds with a [size] by [size] RGBA image.  On a
    writable path [create_icon] returns normally, and whatever it raises
    otherwise is the file system's error from [save], never a font's. *)
Theorem font_fallback_never_fails textbbox size output_path w :
  0 < size ->
  pick_font (fonts w) (Z.max (size / 8) 12)
  = Ok (if bool_decide (dejavu_bold ∈ fonts w)
        then TrueType dejavu_bold (Z.max (size / 8) 12)
        else if bool_decide (arial ∈ fonts w)
             then TrueType arial (Z.max (size / 8) 12)
             else DefaultFont)
  /\ (exists im,
        paint_icon textbbox (fonts w) size = Ok im
        /\ image_size im = (size, size) /\ image_mode im = "RGBA")
  /\ (writable w output_path = true ->
      (create_icon textbbox size output_path w).1 = Ok tt)
  /\ (forall e, (create_icon textbbox size output_path w).1 = Raise e ->
                e = OSError /\ writable w output_path = false).
Proof.
  intros Hs. split; [by apply pick_font_ok; lia|]. split; [|split].
  - exists (icon_image textbbox (fonts w) size). split; [by apply paint_icon_ok|].
    unfold icon_image. by rewrite image_size_layout, image_mode_layout.
  - intros Hw. by rewrite create_icon_run, Hw.
  - intros e. rewrite create_icon_run by done.
    destruct (writable w output_path); cbn [fst]; [discriminate|].
    by intros [= <-].
Qed.

Lemma font_fallback_never_fails_witness :
  0 < 48
  /\ pick_font (fonts res_machine) 12 = Ok DefaultFont
  /\ (exists im,
        paint_icon sample_textbbox (fonts res_machine) 48 = Ok im
        /\ image_size im = (48, 48) /\ image_mode im = "RGBA")
  /\ (writable res_machine "android/icon.png" = true ->
      (create_icon sample_textbbox 48 "android/icon.png" res_machine).1 = Ok tt)
  /\ (forall e,
        (create_icon sample_textbbox 48 "android/icon.png" res_machine).1 = Raise e ->
        e = OSError /\ writable res_machine "android/icon.png" = false).
Proof.
  split; [lia|].
  apply (font_fallback_never_fails sample_textbbox 48 "android/icon.png" res_machine).
  lia.
Defined.

(** C5. For every size > 0 the first shape [create_icon] draws, the badge
    circle, has the bounding box
    [size // 20, size // 20, size - size // 20, size - size // 20]. *)
Theorem badge_bounding_box textbbox fonts size :
  0 < size ->
  exists im rest,
    paint_icon textbbox fonts size = Ok im
    /\ image_shapes im
       = Ellipse (size / 20, size / 20, size - size / 20, size - size / 20)
                 (RGB 33 150 243) :: rest.
Proof.
  intros Hs. eexists _, _. split; [by apply paint_icon_ok|].
  unfold icon_image. rewrite image_shapes_layout, icon_shapes_unfold.
  unfold badge_box. reflexivity.
Qed.

Lemma badge_bounding_box_witness :
  0 < 48
  /\ exists im rest,
       paint_icon sample_textbbox ∅ 48 = Ok im
       /\ image_shapes im = Ellipse (2, 2, 46, 46) (RGB 33 150 243) :: rest.
Proof. split; [lia | apply (badge_bounding_box sample_textbbox ∅ 48); lia]. Defined.

(** C6. For every size > 0 and writable output path, [create_icon] returns
    normally and leaves at that path a PNG whose image is [size] by [size]
    pixels in mode RGBA, on a canvas that started fully transparent. *)
Theorem create_icon_writes_png textbbox size output_path w :
  0 < size -> writable w output_path = true ->
  exists im,
    (create_icon textbbox size output_path w).1 = Ok tt
    /\ files (create_icon textbbox size output_path w).2 !! output_path
       = Some (File "PNG" im)
    /\ image_size im = (size, size)
    /\ image_mode im = "RGBA"
    /\ image_ground im = RGBA 0 0 0 0.
Proof.
  intros Hs Hw. exists (icon_image textbbox (fonts w) size).
  rewrite create_icon_run, Hw by done. cbn [fst snd].
  rewrite with_icon_lookup. unfold icon_image.
  by rewrite image_size_layout, image_mode_layout, image_ground_layout.
Qed.

Lemma create_icon_writes_png_witness :
  0 < 48 /\ writable res_machine "android/icon.png" = true
  /\ exists im,
       (create_icon sample_textbbox 48 "android/icon.png" res_machine).1 = Ok tt
       /\ files (create_icon sample_textbbox 48 "android/icon.png" res_machine).2
            !! "android/icon.png" = Some (File "PNG" im)
       /\ image_size im = (48, 48)
       /\ image_mode im = "RGBA"
       /\ image_ground im = RGBA 0 0 0 0.
Proof.
  split; [lia|]. split; [reflexivity|].
  apply (create_icon_writes_png sample_textbbox 48 "android/icon.png" res_machine);
    [lia|reflexivity].
Defined.

(** C7. When the batch succeeds, the standard and the round icon of every
    folder hold the same image, the one [create_icon] draws at the folder's
    size; the two files differ in name only. *)
Theorem round_icon_same_as_standard textbbox w folder size :
  (main textbbox w).1 = Ok tt -> (folder, size) ∈ sizes ->
  let folder_path := os.path_join base_path folder in
  files (main textbbox w).2 !! os.path_join folder_path "ic_launcher.png"
  = Some (File "PNG" (icon_image textbbox (fonts w) size))
  /\ files (main textbbox w).2 !! os.path_join folder_path "ic_launcher_round.png"
     = Some (File "PNG" (icon_image textbbox (fonts w) size)).
Proof.
  intros Hok Hin folder_path.
  destruct (main_progress textbbox w) as (k & _ & Hf & _ & Hk & _).
  rewrite (Hk Hok) in Hf. change (take 10 jobs) with jobs in Hf. rewrite Hf.
  split; apply written_lookup; try apply jobs_NoDup;
    apply (pair_jobs_in_jobs (folder, size)); try done; cbn [pair_jobs]; fold folder_path.
  - apply list_elem_of_here.
  - apply list_elem_of_further, list_elem_of_here.
Qed.

Lemma round_icon_same_as_standard_witness :
  (main sample_textbbox res_machine).1 = Ok tt
  /\ ("mipmap-hdpi", 72) ∈ sizes
  /\ files (main sample_textbbox res_machine).2
       !! "android/app/src/main/res/mipmap-hdpi/ic_launcher.png"
     = Some (File "PNG" (icon_image sample_textbbox ∅ 72))
  /\ files (main sample_textbbox res_machine).2
       !! "android/app/src/main/res/mipmap-hdpi/ic_launcher_round.png"
     = Some (File "PNG" (icon_image sample_textbbox ∅ 72)).
Proof.
  assert ((main sample_textbbox res_machine).1 = Ok tt) as Hok by (vm_compute; reflexivity).
  assert (("mipmap-hdpi", 72) ∈ sizes) as Hin
    by (apply list_elem_of_further, list_elem_of_here).
  split; [exact Hok|]. split; [exact Hin|].
  exact (round_icon_same_as_standard sample_textbbox res_machine "mipmap-hdpi" 72 Hok Hin).
Defined.

(** C8, as amended.  For every size > 0 the drawing is a function of the
    size, of the font that loads and of the box that font measures for "ID":
    two invocations with the same size on machines with the same font files
    write the same image, whatever the output paths and whatever else the
    machines hold.  The badge, the gradient bands, the font size, the shadow
    offset, and the width, height and horizontal place of the camera and of
    the lens depend on the size alone; the text offsets and the vertical
    place of the camera and of the lens also depend on the measured box. *)
Theorem drawing_determined_by_size_and_font textbbox size path1 path2 w1 w2 :
  0 < size -> fonts w1 = fonts w2 ->
  writable w1 path1 = true -> writable w2 path2 = true ->
  let fnt := picked_font (fonts w1) (Z.max (size / 8) 12) in
  let bbox := textbbox (0, 0) "ID" fnt in
  exists im,
    files (create_icon textbbox size path1 w1).2 !! path1 = Some (File "PNG" im)
    /\ files (create_icon textbbox size path2 w2).2 !! path2 = Some (File "PNG" im)
    /\ image_shapes im = icon_shapes size fnt bbox
    /\ image_overlays im = [draw_all (blank_canvas size) (gradient_bands size)]
    /\ (forall fnt' bbox',
          icon_shapes size fnt' bbox' !! 0%nat
          = Some (Ellipse (badge_box size) (RGB 33 150 243))
          /\ x_extent (camera_box size bbox') = x_extent (camera_box size bbox)
          /\ box_height (camera_box size bbox') = box_height (camera_box size bbox)
          /\ x_extent (lens_box size bbox') = x_extent (lens_box size bbox)
          /\ box_height (lens_box size bbox') = box_height (lens_box size bbox)).
Proof.
  intros Hs Hfonts Hw1 Hw2 fnt bbox.
  exists (icon_image textbbox (fonts w1) size).
  rewrite !create_icon_run, Hw1, Hw2 by done. cbn [fst snd].
  rewrite !with_icon_lookup, <- Hfonts. unfold icon_image. fold fnt. fold bbox.
  rewrite image_shapes_layout, image_overlays_layout.
  repeat split; try done.
  - by rewrite icon_shapes_unfold.
  - destruct (camera_box_extent size bbox') as (-> & _).
    by destruct (camera_box_extent size bbox) as (-> & _).
  - destruct (camera_box_extent size bbox') as (_ & _ & ->).
    by destruct (camera_box_extent size bbox) as (_ & _ & ->).
  - destruct (lens_box_extent size bbox') as (-> & _).
    by destruct (lens_box_extent size bbox) as (-> & _).
  - destruct (lens_box_extent size bbox') as (_ & _ & ->).
    by destruct (lens_box_extent size bbox) as (_ & _ & ->).
Qed.

Lemma drawing_determined_by_size_and_font_witness :
  0 < 192 /\ fonts res_machine = fonts blocked_machine
  /\ writable res_machine "android/a.png" = true
  /\ writable blocked_machine "android/app/b.png" = true
  /\ exists im,
       files (create_icon sample_textbbox 192 "android/a.png" res_machine).2
         !! "android/a.png" = Some (File "PNG" im)
       /\ files (create_icon sample_textbbox 192 "android/app/b.png" blocked_machine).2
            !! "android/app/b.png" = Some (File "PNG" im)
       /\ image_shapes im = icon_shapes 192 DefaultFont (0, 3, 12, 11)
       /\ image_overlays im = [draw_all (blank_canvas 192) (gradient_bands 192)]
       /\ (forall fnt' bbox',
             icon_shapes 192 fnt' bbox' !! 0%nat
             = Some (Ellipse (badge_box 192) (RGB 33 150 243))
             /\ x_extent (camera_box 192 bbox') = x_extent (camera_box 192 (0, 3, 12, 11))
             /\ box_height (camera_box 192 bbox') = box_height (camera_box 192 (0, 3, 12, 11))
             /\ x_extent (lens_box 192 bbox') = x_extent (lens_box 192 (0, 3, 12, 11))
             /\ box_height (lens_box 192 bbox') = box_height (lens_box 192 (0, 3, 12, 11))).
Proof.
  split; [lia|]. split; [reflexivity|]. split; [reflexivity|]. split; [reflexivity|].
  apply (drawing_determined_by_size_and_font sample_textbbox 192
           "android/a.png" "android/app/b.png" res_machine blocked_machine);
    [lia|reflexivity|reflexivity|reflexivity].
Defined.

(** C8, as stated, fails: at size 192 the camera body is drawn at another
    height on a machine with DejaVu Sans Bold than on one without, because
    the text measured differs; its place is not a function of the size
    alone. *)
Lemma geometry_not_size_alone :
  ~ (forall textbbox fonts1 fonts2 size im1 im2 cam1 cam2 fill1 fill2,
       0 < size ->
       paint_icon textbbox fonts1 size = Ok im1 ->
       paint_icon textbbox fonts2 size = Ok im2 ->
       Rectangle cam1 fill1 ∈ image_shapes im1 ->
       Rectangle cam2 fill2 ∈ image_shapes im2 ->
       cam1 = cam2).
Proof.
  intros H.
  assert ((80, 98, 112, 114) = (80, 93, 112, 109) :> box) as Habs; [|discriminate Habs].
  apply (H sample_textbbox (fonts dejavu_machine) (fonts res_machine) 192
           (icon_image sample_textbbox (fonts dejavu_machine) 192)
           (icon_image sample_textbbox (fonts res_machine) 192)
           _ _ (RGB 255 193 7) (RGB 255 193 7)).
  - lia.
  - by apply paint_icon_ok.
  - by apply paint_icon_ok.
  - unfold icon_image. rewrite image_shapes_layout, icon_shapes_unfold.
    do 3 apply list_elem_of_further. vm_compute. apply list_elem_of_here.
  - unfold icon_image. rewrite image_shapes_layout, icon_shapes_unfold.
    do 3 apply list_elem_of_further. vm_compute. apply list_elem_of_here.
Qed.



(** C10. At size 1 the gradient loop runs over an empty range, so the
    division by [size // 2 = 0] is never evaluated; for every size >= 1 each
    division of the loop has a non-zero divisor, and neither the drawing nor
    [create_icon] raises [ZeroDivisionError]. *)
Theorem gradient_never_divides_by_zero textbbox size output_path w :
  1 <= size ->
  Py.range (1 / 2) = []
  /\ (forall i, i ∈ Py.range (size / 2) ->
        size / 2 <> 0 /\ Py.truediv i (size / 2) <> Raise ZeroDivisionError)
  /\ is_ok (paint_icon textbbox (fonts w) size) = true
  /\ (create_icon textbbox size output_path w).1 <> Raise ZeroDivisionError.
Proof.
  intros Hs. split; [reflexivity|]. split; [|split].
  - intros i Hi. apply elem_of_seqZ in Hi.
    destruct (truediv_below i (size / 2) ltac:(lia)) as (y & -> & _).
    split; [lia|discriminate].
  - by rewrite paint_icon_ok by lia.
  - rewrite create_icon_run by lia. by destruct (writable w output_path).
Qed.

Lemma gradient_never_divides_by_zero_witness :
  1 <= 1
  /\ Py.range (1 / 2) = []
  /\ (forall i, i ∈ Py.range (1 / 2) ->
        1 / 2 <> 0 /\ Py.truediv i (1 / 2) <> Raise ZeroDivisionError)
  /\ is_ok (paint_icon sample_textbbox (fonts res_machine) 1) = true
  /\ (create_icon sample_textbbox 1 "android/icon.png" res_machine).1
     <> Raise ZeroDivisionError.
Proof.
  split; [lia|].
  apply (gradient_never_divides_by_zero sample_textbbox 1 "android/icon.png" res_machine).
  lia.
Defined.

(** * Further properties of [create_icon] and [main] *)





(** X3. For a negative size [create_icon] raises [ValueError] on its first
    line ([Image.new] refuses the canvas): nothing is drawn, written or
    printed. *)
Theorem create_icon_negative_size textbbox size output_path w :
  size < 0 -> create_icon textbbox size output_path w = (Raise ValueError, w).
Proof.
  intros Hs. unfold create_icon, lift, mbind, M_bind, paint_icon, Image_new. cbn [fst snd].
  destruct (Z.ltb_spec size 0); [done|lia].
Qed.

Lemma create_icon_negative_size_witness :
  -1 < 0
  /\ create_icon sample_textbbox (-1) "android/icon.png" res_machine
     = (Raise ValueError, res_machine).
Proof.
  split; [lia|].
  apply (create_icon_negative_size sample_textbbox (-1) "android/icon.png" res_machine). lia.
Defined.

(** X4. For every size > 0, however large, every band of the gradient
    overlay is a black ellipse whose alpha, computed in doubles on line 31,
    is an integer from 0 to 127: always a valid 8-bit channel value. *)
Theorem gradient_alpha_is_channel textbbox fonts size :
  0 < size ->
  exists im overlay,
    paint_icon textbbox fonts size = Ok im
    /\ image_overlays im = [overlay]
    /\ Forall (fun s => exists xy alpha,
                 s = Ellipse xy (RGBA 0 0 0 alpha) /\ 0 <= alpha < 128)
         (image_shapes overlay).
Proof.
  intros Hs. destruct (paint_icon_overlay textbbox fonts size Hs) as (im & overlay & H1 & H2 & H3).
  exists im, overlay. split; [done|]. split; [done|]. rewrite H3.
  apply Forall_lookup. intros i s Hl.
  apply gradient_bands_lookup in Hl as [Hi ->].
  eexists _, _. split; [reflexivity|]. by apply band_alpha_channel.
Qed.

Lemma gradient_alpha_is_channel_witness :
  0 < 48
  /\ exists im overlay,
       paint_icon sample_textbbox ∅ 48 = Ok im
       /\ image_overlays im = [overlay]
       /\ Forall (fun s => exists xy alpha,
                    s = Ellipse xy (RGBA 0 0 0 alpha) /\ 0 <= alpha < 128)
            (image_shapes overlay).
Proof. split; [lia | apply (gradient_alpha_is_channel sample_textbbox ∅ 48); lia]. Defined.

(** X5. For every size with [0 < size <= 2 ^ 48] the alphas of the gradient
    form a ramp: the first band has alpha 0, the alpha never decreases from
    one band to the next, and it stays at or below 29 (the factor 30 is
    never reached). *)
Theorem gradient_ramp_monotone textbbox fonts size :
  0 < size -> size <= 2 ^ 48 ->
  exists im overlay,
    paint_icon textbbox fonts size = Ok im
    /\ image_overlays im = [overlay]
    /\ (forall xy r g b alpha,
          image_shapes overlay !! 0%nat = Some (Ellipse xy (RGBA r g b alpha)) -> alpha = 0)
    /\ (forall (i j : nat) xy xy' r g b r' g' b' alpha alpha',
          image_shapes overlay !! i = Some (Ellipse xy (RGBA r g b alpha)) ->
          image_shapes overlay !! j = Some (Ellipse xy' (RGBA r' g' b' alpha')) ->
          (i <= j)%nat -> 0 <= alpha /\ alpha <= alpha' /\ alpha' <= 29).
Proof.
  intros Hs Hmax.
  destruct (paint_icon_overlay textbbox fonts size Hs) as (im & overlay & H1 & H2 & H3).
  exists im, overlay. split; [done|]. split; [done|]. rewrite H3.
  assert (size / 2 <= 2 ^ 47) as Hh.
  { change (2 ^ 48) with (2 * 2 ^ 47) in Hmax. div_lia. }
  split.
  - intros xy r g b alpha Hl. apply gradient_bands_lookup in Hl as [Hi Hl].
    unfold band_shape in Hl. injection Hl as _ _ _ _ ->.
    rewrite band_alpha_floor by done. cbn [Z.of_nat]. by rewrite Z.mul_0_r, Z.div_0_l by lia.
  - intros i j xy xy' r g b r' g' b' alpha alpha' Hi Hj Hij.
    apply gradient_bands_lookup in Hi as [Hi Hli], Hj as [Hj Hlj].
    unfold band_shape in Hli, Hlj.
    injection Hli as _ _ _ _ ->. injection Hlj as _ _ _ _ ->.
    rewrite !band_alpha_floor by done.
    split; [apply Z.div_pos; lia|]. split.
    + apply Z.div_le_mono; lia.
    + assert (30 * Z.of_nat j / (size / 2) < 30); [|lia].
      apply Z.div_lt_upper_bound; lia.
Qed.

Lemma gradient_ramp_monotone_witness :
  0 < 48 /\ 48 <= 2 ^ 48
  /\ exists im overlay,
       paint_icon sample_textbbox ∅ 48 = Ok im
       /\ image_overlays im = [overlay]
       /\ (forall xy r g b alpha,
             image_shapes overlay !! 0%nat = Some (Ellipse xy (RGBA r g b alpha)) ->
             alpha = 0)
       /\ (forall (i j : nat) xy xy' r g b r' g' b' alpha alpha',
             image_shapes overlay !! i = Some (Ellipse xy (RGBA r g b alpha)) ->
             image_shapes overlay !! j = Some (Ellipse xy' (RGBA r' g' b' alpha')) ->
             (i <= j)%nat -> 0 <= alpha /\ alpha <= alpha' /\ alpha' <= 29).
Proof.
  split; [lia|]. split; [done|].
  apply (gradient_ramp_monotone sample_textbbox ∅ 48); [lia|done].
Defined.

(** X6. For every size > 0 the overlay holds [size // 2] bands, and band
    [i] shares the left, right and bottom edges of the badge's bounding box
    while its top edge lies [i] pixels below the badge's: every band is a
    well-formed box inside the badge's box, which lies inside the canvas. *)
Theorem gradient_bands_inside_badge textbbox fonts size :
  0 < size ->
  exists im overlay rest,
    paint_icon textbbox fonts size = Ok im
    /\ image_overlays im = [overlay]
    /\ image_shapes im = Ellipse (badge_box size) (RGB 33 150 243) :: rest
    /\ length (image_shapes overlay) = Z.to_nat (size / 2)
    /\ (forall (i : nat) x0 y0 x1 y1 fill,
          image_shapes overlay !! i = Some (Ellipse (x0, y0, x1, y1) fill) ->
          let '(bx0, by0, bx1, by1) := badge_box size in
          x0 = bx0 /\ x1 = bx1 /\ y1 = by1
          /\ y0 = by0 + Z.of_nat i /\ y0 < y1
          /\ 0 <= bx0 /\ bx1 <= size).
Proof.
  intros Hs. eexists _, _, _. split; [by apply paint_icon_ok|].
  unfold icon_image. rewrite image_overlays_layout. split; [done|].
  rewrite image_shapes_layout, icon_shapes_unfold. split; [done|].
  rewrite image_shapes_overlay. split.
  - unfold gradient_bands, Py.range. by rewrite length_fmap, length_seqZ.
  - intros i x0 y0 x1 y1 fill Hl. apply gradient_bands_lookup in Hl as [Hi Hl].
    unfold band_shape in Hl. injection Hl as -> -> -> -> _. unfold badge_box.
    repeat split; try done; div_lia.
Qed.

Lemma gradient_bands_inside_badge_witness :
  0 < 48
  /\ exists im overlay rest,
       paint_icon sample_textbbox ∅ 48 = Ok im
       /\ image_overlays im = [overlay]
       /\ image_shapes im = Ellipse (badge_box 48) (RGB 33 150 243) :: rest
       /\ length (image_shapes overlay) = 24%nat
       /\ (forall (i : nat) x0 y0 x1 y1 fill,
             image_shapes overlay !! i = Some (Ellipse (x0, y0, x1, y1) fill) ->
             x0 = 2 /\ x1 = 46 /\ y1 = 46
             /\ y0 = 2 + Z.of_nat i /\ y0 < y1
             /\ 0 <= 2 /\ 46 <= 48).
Proof. split; [lia | apply (gradient_bands_inside_badge sample_textbbox ∅ 48); lia]. Defined.

(** X7. For every size > 0 the lens lies inside the camera body and is
    centred in it, horizontally and vertically, to within one pixel; the
    camera body lies between the left and right edges of the canvas and is
    centred between them to within one pixel. *)
Theorem lens_centred_in_camera textbbox fonts size :
  0 < size ->
  exists im badge shadow label cx0 cy0 cx1 cy1 lx0 ly0 lx1 ly1,
    paint_icon textbbox fonts size = Ok im
    /\ image_shapes im
       = [badge; shadow; label;
          Rectangle (cx0, cy0, cx1, cy1) (RGB 255 193 7);
          Ellipse (lx0, ly0, lx1, ly1) (RGBA 0 0 0 150)]
    /\ (cx0 <= lx0 /\ lx1 <= cx1 /\ cy0 <= ly0 /\ ly1 <= cy1)
    /\ 0 <= (cx1 - lx1) - (lx0 - cx0) <= 1
    /\ 0 <= (cy1 - ly1) - (ly0 - cy0) <= 1
    /\ (0 <= cx0 /\ cx1 <= size)
    /\ 0 <= (size - cx1) - cx0 <= 1.
Proof.
  intros Hs. destruct (paint_icon_shapes textbbox fonts size Hs) as (im & Him & Hshapes).
  rewrite icon_shapes_unfold in Hshapes. unfold camera_box, lens_box, camera_origin in Hshapes.
  destruct (textbbox _ _ _) as [[[bbox0 bbox1] bbox2] bbox3].
  eexists im, _, _, _, _, _, _, _, _, _, _, _. split; [done|]. split; [exact Hshapes|].
  repeat split; div_lia.
Qed.

Lemma lens_centred_in_camera_witness :
  0 < 48
  /\ exists im badge shadow label cx0 cy0 cx1 cy1 lx0 ly0 lx1 ly1,
       paint_icon sample_textbbox ∅ 48 = Ok im
       /\ image_shapes im
          = [badge; shadow; label;
             Rectangle (cx0, cy0, cx1, cy1) (RGB 255 193 7);
             Ellipse (lx0, ly0, lx1, ly1) (RGBA 0 0 0 150)]
       /\ (cx0 <= lx0 /\ lx1 <= cx1 /\ cy0 <= ly0 /\ ly1 <= cy1)
       /\ 0 <= (cx1 - lx1) - (lx0 - cx0) <= 1
       /\ 0 <= (cy1 - ly1) - (ly0 - cy0) <= 1
       /\ (0 <= cx0 /\ cx1 <= 48)
       /\ 0 <= (48 - cx1) - cx0 <= 1.
Proof. split; [lia | apply (lens_centred_in_camera sample_textbbox ∅ 48); lia]. Defined.

(** X8. For every size > 0 the badge's box is a square of positive side,
    and it fills the canvas exactly when size < 20 (the margin is 0); the
    camera body has a positive width exactly from size 6 and a positive
    height exactly from size 12; the lens has a positive diameter exactly
    from size 18.  Below these sizes the shapes are drawn with an empty
    box. *)
Theorem small_sizes_lose_detail textbbox fonts size :
  0 < size ->
  exists im badge shadow label cam lens,
    paint_icon textbbox fonts size = Ok im
    /\ image_shapes im
       = [Ellipse badge (RGB 33 150 243); shadow; label;
          Rectangle cam (RGB 255 193 7); Ellipse lens (RGBA 0 0 0 150)]
    /\ 0 < box_width badge /\ box_height badge = box_width badge
    /\ (box_width badge = size <-> size < 20)
    /\ (0 < box_width cam <-> 6 <= size)
    /\ (0 < box_height cam <-> 12 <= size)
    /\ (0 < box_width lens <-> 18 <= size).
Proof.
  intros Hs. destruct (paint_icon_shapes textbbox fonts size Hs) as (im & Him & Hshapes).
  rewrite icon_shapes_unfold in Hshapes.
  eexists im, _, _, _, _, _. split; [done|]. split; [exact Hshapes|].
  destruct (camera_box_extent size (textbbox (0, 0) "ID"
              (picked_font fonts (Z.max (size / 8) 12)))) as (_ & -> & ->).
  destruct (lens_box_extent size (textbbox (0, 0) "ID"
              (picked_font fonts (Z.max (size / 8) 12)))) as (_ & -> & _).
  unfold badge_box. cbn [box_width box_height].
  repeat split; intros; div_lia.
Qed.

Lemma small_sizes_lose_detail_witness :
  0 < 12
  /\ exists im badge shadow label cam lens,
       paint_icon sample_textbbox ∅ 12 = Ok im
       /\ image_shapes im
          = [Ellipse badge (RGB 33 150 243); shadow; label;
             Rectangle cam (RGB 255 193 7); Ellipse lens (RGBA 0 0 0 150)]
       /\ 0 < box_width badge /\ box_height badge = box_width badge
       /\ (box_width badge = 12 <-> 12 < 20)
       /\ (0 < box_width cam <-> 6 <= 12)
       /\ (0 < box_height cam <-> 12 <= 12)
       /\ (0 < box_width lens <-> 18 <= 12).
Proof. split; [lia | apply (small_sizes_lose_detail sample_textbbox ∅ 12); lia]. Defined.

(** X9. For every size > 0 the shadow of the label is drawn before the
    label, with the same text and font, displaced by the same offset to the
    right and down; the offset is at least 1 and is [size // 100] exactly
    from size 100; the font is asked for at [px >= 12] pixels, [size // 8]
    exactly from size 96, and loading it does not fail; the label is centred
    between the left and right edges of the canvas to within one pixel, for
    the width the font measures. *)
Theorem label_drawn_over_shadow textbbox fonts size :
  0 < size ->
  exists im badge x y offset px fnt cam lens,
    paint_icon textbbox fonts size = Ok im
    /\ image_shapes im
       = [badge;
          Text (x + offset, y + offset) "ID" (RGBA 0 0 0 100) fnt;
          Text (x, y) "ID" (RGB 255 255 255) fnt;
          cam; lens]
    /\ pick_font fonts px = Ok fnt
    /\ 12 <= px /\ (px = size / 8 <-> 96 <= size)
    /\ 1 <= offset /\ (offset = size / 100 <-> 100 <= size)
    /\ 0 <= (size - (x + box_width (textbbox (0, 0) "ID" fnt))) - x <= 1.
Proof.
  intros Hs. destruct (paint_icon_shapes textbbox fonts size Hs) as (im & Him & Hshapes).
  rewrite icon_shapes_unfold in Hshapes. cbv zeta in Hshapes.
  set (fnt := picked_font fonts (Z.max (size / 8) 12)) in *.
  unfold text_origin in Hshapes.
  destruct (textbbox (0, 0) "ID" fnt) as [[[bbox0 bbox1] bbox2] bbox3] eqn:Hbox.
  cbn [fst snd] in Hshapes.
  eexists im, _, _, _, _, (Z.max (size / 8) 12), fnt, _, _.
  split; [done|]. split; [exact Hshapes|].
  split; [apply pick_font_ok; lia|].
  rewrite Hbox. cbn [box_width].
  repeat split; intros; div_lia.
Qed.

Lemma label_drawn_over_shadow_witness :
  0 < 192
  /\ exists im badge x y offset px fnt cam lens,
       paint_icon sample_textbbox ∅ 192 = Ok im
       /\ image_shapes im
          = [badge;
             Text (x + offset, y + offset) "ID" (RGBA 0 0 0 100) fnt;
             Text (x, y) "ID" (RGB 255 255 255) fnt;
             cam; lens]
       /\ pick_font ∅ px = Ok fnt
       /\ 12 <= px /\ (px = 192 / 8 <-> 96 <= 192)
       /\ 1 <= offset /\ (offset = 192 / 100 <-> 100 <= 192)
       /\ 0 <= (192 - (x + box_width (sample_textbbox (0, 0) "ID" fnt))) - x <= 1.
Proof. split; [lia | apply (label_drawn_over_shadow sample_textbbox ∅ 192); lia]. Defined.

(** X10. For every size > 0 the gradient overlay, a transparent RGBA
    canvas of the icon's size holding only black ellipses, is composited
    over the canvas that holds the badge alone; the shadow, the label, the
    camera body and the lens are drawn afterwards, on top of the result, so
    the gradient darkens the badge and nothing else. *)
Theorem gradient_composited_under_label textbbox fonts size :
  0 < size ->
  exists base overlay shadow label cam lens,
    paint_icon textbbox fonts size
    = Ok (Drawn (Drawn (Drawn (Drawn (Composite base overlay) shadow) label) cam) lens)
    /\ base = Drawn (blank_canvas size) (Ellipse (badge_box size) (RGB 33 150 243))
    /\ image_size overlay = (size, size)
    /\ image_mode overlay = "RGBA"
    /\ image_ground overlay = RGBA 0 0 0 0
    /\ image_overlays overlay = []
    /\ Forall (fun s => exists xy alpha, s = Ellipse xy (RGBA 0 0 0 alpha))
         (image_shapes overlay).
Proof.
  intros Hs. rewrite paint_icon_ok by done.
  unfold icon_image, icon_layout. rewrite icon_shapes_unfold.
  cbn [draw_all foldl]. fold (draw_all (blank_canvas size) (gradient_bands size)).
  eexists _, _, _, _, _, _. split; [reflexivity|]. split; [reflexivity|].
  rewrite image_size_draw_all, image_mode_draw_all, image_ground_draw_all,
    image_overlays_draw_all, image_shapes_draw_all.
  repeat split. cbn [image_shapes blank_canvas app].
  unfold gradient_bands. apply Forall_fmap, Forall_forall. intros i _.
  by eexists _, _.
Qed.

Lemma gradient_composited_under_label_witness :
  0 < 48
  /\ exists base overlay shadow label cam lens,
       paint_icon sample_textbbox ∅ 48
       = Ok (Drawn (Drawn (Drawn (Drawn (Composite base overlay) shadow) label) cam) lens)
       /\ base = Drawn (blank_canvas 48) (Ellipse (badge_box 48) (RGB 33 150 243))
       /\ image_size overlay = (48, 48)
       /\ image_mode overlay = "RGBA"
       /\ image_ground overlay = RGBA 0 0 0 0
       /\ image_overlays overlay = []
       /\ Forall (fun s => exists xy alpha, s = Ellipse xy (RGBA 0 0 0 alpha))
            (image_shapes overlay).
Proof. split; [lia | apply (gradient_composited_under_label sample_textbbox ∅ 48); lia]. Defined.

(** X11. [main] returns normally exactly when nothing is in its way: no
    regular file sits at one of the ten directories of the icon tree that
    is not there yet, and no directory sits at one of the ten icon paths.
    Fonts, existing icons and other files never make it fail. *)
Theorem main_returns_iff_unblocked textbbox w :
  (main textbbox w).1 = Ok tt <-> can_run w.
Proof. rewrite main_returns. apply sizes_ready. Qed.

(** X12. When [main] returns, the directories are the ones there before
    together with the ten of the icon tree: it has created exactly those of
    the ten that were missing ([exist_ok=True]), and none when all ten were
    there. *)
Theorem main_creates_missing_dirs textbbox w :
  (main textbbox w).1 = Ok tt ->
  dirs (main textbbox w).2 = list_to_set tree_dirs ∪ dirs w
  /\ dirs (main textbbox w).2 ∖ dirs w
     = list_to_set (filter (fun d => d ∉ dirs w) tree_dirs)
  /\ (Forall (fun d => d ∈ dirs w) tree_dirs -> dirs (main textbbox w).2 = dirs w).
Proof.
  intros Hok. destruct (main_ok_state textbbox w Hok) as (Hd & _).
  split; [done|]. rewrite Hd. split.
  - apply set_eq. intros d.
    rewrite elem_of_difference, elem_of_union, !elem_of_list_to_set, list_elem_of_filter.
    tauto.
  - rewrite Forall_forall. intros Hall. apply set_eq. intros d.
    rewrite elem_of_union, elem_of_list_to_set. split; [|tauto].
    intros [?|?]; [by apply Hall|done].
Qed.

Lemma main_creates_missing_dirs_witness :
  (main sample_textbbox res_machine).1 = Ok tt
  /\ dirs (main sample_textbbox res_machine).2 = list_to_set tree_dirs ∪ dirs res_machine
  /\ dirs (main sample_textbbox res_machine).2 ∖ dirs res_machine
     = list_to_set (filter (fun d => d ∉ dirs res_machine) tree_dirs)
  /\ (Forall (fun d => d ∈ dirs res_machine) tree_dirs ->
      dirs (main sample_textbbox res_machine).2 = dirs res_machine).
Proof.
  assert ((main sample_textbbox res_machine).1 = Ok tt) as Hok by (vm_compute; reflexivity).
  split; [exact Hok|].
  exact (main_creates_missing_dirs sample_textbbox res_machine Hok).
Defined.

(** X13. Whatever the outcome, [main] removes nothing and stays in its
    tree: the font files are untouched, every directory and every file that
    was there is still there, a new directory is one of the ten of the icon
    tree and did not replace a file, and every file other than the ten
    icons holds what it held. *)
Theorem main_touches_only_its_tree textbbox w :
  fonts (main textbbox w).2 = fonts w
  /\ dirs w ⊆ dirs (main textbbox w).2
  /\ (forall d, d ∈ dirs (main textbbox w).2 ->
        d ∈ dirs w \/ (d ∈ tree_dirs /\ d ∉ dom (files w)))
  /\ dom (files w) ⊆ dom (files (main textbbox w).2)
  /\ (forall p, p ∉ jobs.*1 -> files (main textbbox w).2 !! p = files w !! p).
Proof.
  destruct (main_state_grows textbbox w) as (H1 & H2 & H3 & H4).
  repeat split; try done.
  intros p Hp. destruct (main_progress textbbox w) as (k & _ & -> & _).
  apply written_lookup_other. intros Hin. apply Hp.
  apply list_elem_of_fmap in Hin as (job & -> & Hin).
  apply list_elem_of_fmap_2. by apply (subseteq_take k).
Qed.

(** X14. Running [main] again after a run that returned also returns, and
    leaves the directories, the files (the ten icons included) and the font
    files exactly as the first run left them. *)
Theorem main_rerun_changes_nothing textbbox w :
  (main textbbox w).1 = Ok tt ->
  (main textbbox (main textbbox w).2).1 = Ok tt
  /\ dirs (main textbbox (main textbbox w).2).2 = dirs (main textbbox w).2
  /\ files (main textbbox (main textbbox w).2).2 = files (main textbbox w).2
  /\ fonts (main textbbox (main textbbox w).2).2 = fonts (main textbbox w).2.
Proof.
  intros Hok. destruct (main_ok_state textbbox w Hok) as (Hd & Hf & Hn).
  pose proof Hok as Hready. apply main_returns, sizes_ready in Hready as [_ Hjobs].
  set (w1 := (main textbbox w).2) in *.
  assert ((main textbbox w1).1 = Ok tt) as Hok1.
  { apply main_returns, sizes_ready. split.
    - apply Forall_forall. intros d Hin. left. rewrite Hd.
      by apply elem_of_union_l, elem_of_list_to_set.
    - pose proof jobs_not_dirs as Hnd. rewrite Forall_forall in Hjobs, Hnd |- *.
      intros p Hp. rewrite Hd. apply not_elem_of_union. split; [|by apply Hjobs].
      rewrite elem_of_list_to_set. by apply Hnd. }
  destruct (main_ok_state textbbox w1 Hok1) as (Hd1 & Hf1 & Hn1).
  split; [done|]. split; [|split; [|done]].
  - rewrite Hd1, Hd. apply set_eq. intros d. rewrite !elem_of_union. tauto.
  - rewrite Hf1, Hn, Hf. apply written_twice, jobs_NoDup.
Qed.

Lemma main_rerun_changes_nothing_witness :
  (main sample_textbbox res_machine).1 = Ok tt
  /\ (main sample_textbbox (main sample_textbbox res_machine).2).1 = Ok tt
  /\ dirs (main sample_textbbox (main sample_textbbox res_machine).2).2
     = dirs (main sample_textbbox res_machine).2
  /\ files (main sample_textbbox (main sample_textbbox res_machine).2).2
     = files (main sample_textbbox res_machine).2
  /\ fonts (main sample_textbbox (main sample_textbbox res_machine).2).2
     = fonts (main sample_textbbox res_machine).2.
Proof.
  assert ((main sample_textbbox res_machine).1 = Ok tt) as Hok by (vm_compute; reflexivity).
  split; [exact Hok|].
  exact (main_rerun_changes_nothing sample_textbbox res_machine Hok).
Defined.

(** X15. What [main] prints, whatever the outcome: the two opening lines,
    then one "Created icon" line for each of the [k] jobs it completed, in
    job order, then the seven closing lines exactly when it returns; the
    files are those of the same [k] jobs, and [k = 10] exactly when it
    returns. *)
Theorem main_console_trace textbbox w :
  exists k : nat,
    (k <= 10)%nat
    /\ files (main textbbox w).2 = written textbbox (fonts w) (take k jobs) (files w)
    /\ stdout (main textbbox w).2
       = stdout w ++ opening_lines ++ (job_line <$> take k jobs)
         ++ (if is_ok (main textbbox w).1 then closing_lines else [])
    /\ ((main textbbox w).1 = Ok tt <-> k = 10%nat).
Proof. apply main_trace. Qed.

(** X16. "All icons generated successfully!" is among the lines [main]
    prints exactly when [main] returns, that is, when all ten icons were
    written. *)
Theorem success_banner_iff_success textbbox w :
  success_banner ∈ drop (length (stdout w)) (stdout (main textbbox w).2)
  <-> (main textbbox w).1 = Ok tt.
Proof.
  destruct (main_trace textbbox w) as (k & _ & _ & -> & Hk).
  rewrite drop_app_length.
  destruct (main textbbox w).1 as [[]|e]; cbn [is_ok].
  - split; [done|]. intros _. rewrite !elem_of_app. right. right.
    unfold closing_lines, success_banner. apply list_elem_of_further, list_elem_of_here.
  - split; [|done]. rewrite app_nil_r, elem_of_app. intros [Hin|Hin].
    + exfalso. revert Hin. unfold opening_lines, success_banner.
      rewrite !elem_of_cons, elem_of_nil. intros [?|[?|?]]; done.
    + exfalso. pose proof banner_not_a_job_line as Hno. rewrite Forall_forall in Hno.
      apply (Hno success_banner); [|done].
      apply list_elem_of_fmap in Hin as (job & -> & Hin).
      apply list_elem_of_fmap_2. by apply (subseteq_take k).
Qed.
